(** * Trade-token issuer and widget gateway of the 247 Terminal widget backend

    A shallow embedding of the backend described, with its code, in
    [_documentation/backend_implementation_plan.md]:

    - [app/models/postgres/widget.js]                    ([widget_model])
    - [app/routes/widget/widget.service.js]              ([widget_service])
    - [app/routes/widget/widget.controller.js]           ([widget_controller])
    - [app/websocket/widget/widget.connection_manager.js]
    - [app/websocket/widget/widget.rate_limiter.js]
    - [app/websocket/widget/widget.websocket.js]

    and of the reconnecting client in [src/services/websocket_service.ts].

    JavaScript values are an inductive type with the language's truthiness,
    [typeof] and property access; [async] functions are computations in a
    state-and-exception monad over one [world] (PostgreSQL tables, Redis keys,
    the in-process connection map, the socket objects and the wall clock).
    Logger calls have no effect on control flow and are left out. *)

From Stdlib Require Import ZArith QArith Ascii String List Bool Lia Lqa.
From stdpp Require Import gmap strings list fin_maps pretty.

Close Scope Q_scope.
Local Open Scope Z_scope.
Local Open Scope string_scope.

(** ** JavaScript values *)

Module Js.

(** An IEEE number as far as the code looks at it: a finite value (a
    rational; both zeros are [0]), or one of the three special values. *)
Inductive number :=
| Finite (q : Q)
| NaN
| PosInfinity
| NegInfinity.

#[warnings="-register-all"] Inductive value :=
| Undefined
| Null
| Bool (b : bool)
| Num (n : number)
| Str (s : string)
| Arr (items : list value)
| Obj (fields : list (string * value)).

Definition of_Z (z : Z) : value := Num (Finite (inject_Z z)).

(** [!!v] *)
Definition truthy (v : value) : bool :=
  match v with
  | Undefined | Null => false
  | Bool b => b
  | Num (Finite q) => negb (Qeq_bool q 0)
  | Num NaN => false
  | Num _ => true
  | Str s => negb (String.eqb s "")
  | Arr _ | Obj _ => true
  end.

(** [typeof v] *)
Definition typeof (v : value) : string :=
  match v with
  | Undefined => "undefined"
  | Null | Arr _ | Obj _ => "object"
  | Bool _ => "boolean"
  | Num _ => "number"
  | Str _ => "string"
  end.

(** [v === 'text'] *)
Definition is_str (v : value) (text : string) : bool :=
  match v with
  | Str s => String.eqb s text
  | _ => false
  end.

(** [n <= 0] on numbers: false for [NaN]. *)
Definition le_zero (n : number) : bool :=
  match n with
  | Finite q => Qle_bool q 0
  | NegInfinity => true
  | NaN | PosInfinity => false
  end.

(** [Number.isFinite] *)
Definition is_finite (n : number) : bool :=
  match n with
  | Finite _ => true
  | _ => false
  end.

Fixpoint own_property (fields : list (string * value)) (key : string) : value :=
  match fields with
  | [] => Undefined
  | (k, v) :: rest => if String.eqb k key then v else own_property rest key
  end.

(** [e || d] *)
Definition or_else (e d : value) : value := if truthy e then e else d.

(** An [Error] object: its message and its [code] property, when set. *)
Record error := { message : string; code : option string }.

Definition TypeError (msg : string) : error := {| message := msg; code := None |}.
Definition SyntaxError (msg : string) : error := {| message := msg; code := None |}.

End Js.

Import Js.

(** ** The state the code runs against *)

(** Row of [exchange_configurations]. [rate_limit_connections] is a nullable
    INTEGER column; a NULL [is_active] or [allowed_origins] behaves in the
    code as [false] and as the empty array. *)
Module exchange_configurations.
Record row := {
  exchange_id : string;
  api_key : string;
  secret_signing_key : string;
  display_name : string;
  theme_config : value;
  feature_flags : value;
  allowed_origins : list string;
  rate_limit_connections : option Z;
  rate_limit_messages_per_minute : option Z;
  is_active : bool
}.
End exchange_configurations.

(** Row of [widget_trades]; [trade_id] stands for the UUID the table
    generates. *)
Module widget_trades.
Record row := {
  trade_id : N;
  exchange_id : string;
  exchange_user_id : string;
  trade_params : value;
  status : string
}.
End widget_trades.

(** The database: both tables, the next identifier [gen_random_uuid()]
    hands out, and what the next calls of [postgres.pool.query] meet:
    [Some e] makes the query reject with [e], [None] lets it run. *)
Record postgres := {
  exchange_rows : list exchange_configurations.row;
  trade_rows : list widget_trades.row;
  next_uuid : N;
  faults : list (option error)
}.

(** Redis: string keys holding integers, set keys, and the TTL last given to
    a key. Counters and sets are kept in separate key spaces. *)
Record redis_store := {
  strings : gmap string Z;
  sets : gmap string (gset string);
  ttl : gmap string Z
}.

(** The [ws] socket object. [sent] lists the frames put on the wire, oldest
    first; [close_call] is the code and reason of the [close()] that started
    the closing handshake. *)
Inductive ready_state := CONNECTING | OPEN | CLOSING | CLOSED.

Inductive server_frame :=
| Text (payload : value)
| PingFrame.

Record socket := {
  readyState : ready_state;
  sent : list server_frame;
  close_call : option (Z * string)
}.

(** The variables of one [wss.on('connection')] closure. A timer variable is
    [true] while its timer is armed. *)
Record session := {
  ip : string;
  origin : option string;
  exchange_id : option string;
  is_authenticated : bool;
  auth_timeout : bool;
  heartbeat_interval : bool
}.

(** Entry of [widget_connection_manager.connections]; the socket it holds is
    the object stored under the same [socket_id] in [sockets]. *)
Record connection := {
  conn_exchange_id : string;
  conn_ip : string;
  connected_at : Z
}.

(** The wall clock in milliseconds: [current] is what the next [Date.now()]
    returns, [later] what the following ones return. *)
Record clock := { current : Z; later : list Z }.

Record world := {
  pg : postgres;
  redis : redis_store;
  connections : gmap string connection;
  sockets : gmap string socket;
  sessions : gmap string session;
  time : clock
}.

Definition set_pg (f : postgres -> postgres) (w : world) : world :=
  {| pg := f (pg w); redis := redis w; connections := connections w;
     sockets := sockets w; sessions := sessions w; time := time w |}.
Definition set_redis (f : redis_store -> redis_store) (w : world) : world :=
  {| pg := pg w; redis := f (redis w); connections := connections w;
     sockets := sockets w; sessions := sessions w; time := time w |}.
Definition set_connections (f : gmap string connection -> gmap string connection)
    (w : world) : world :=
  {| pg := pg w; redis := redis w; connections := f (connections w);
     sockets := sockets w; sessions := sessions w; time := time w |}.
Definition set_sockets (f : gmap string socket -> gmap string socket)
    (w : world) : world :=
  {| pg := pg w; redis := redis w; connections := connections w;
     sockets := f (sockets w); sessions := sessions w; time := time w |}.
Definition set_sessions (f : gmap string session -> gmap string session)
    (w : world) : world :=
  {| pg := pg w; redis := redis w; connections := connections w;
     sockets := sockets w; sessions := f (sessions w); time := time w |}.
Definition set_time (f : clock -> clock) (w : world) : world :=
  {| pg := pg w; redis := redis w; connections := connections w;
     sockets := sockets w; sessions := sessions w; time := f (time w) |}.

(** ** Computations: state and exceptions *)

Inductive outcome (A : Type) :=
| Return (a : A)
| Throw (e : error).
Arguments Return {A} a.
Arguments Throw {A} e.

Definition M (A : Type) : Type := world -> outcome A * world.

Definition ret {A} (a : A) : M A := fun w => (Return a, w).
Definition throw {A} (e : error) : M A := fun w => (Throw e, w).
Definition bind {A B} (m : M A) (k : A -> M B) : M B :=
  fun w => match m w with
           | (Return a, w') => k a w'
           | (Throw e, w') => (Throw e, w')
           end.
Definition try_catch {A} (m : M A) (handler : error -> M A) : M A :=
  fun w => match m w with
           | (Return a, w') => (Return a, w')
           | (Throw e, w') => handler e w'
           end.
Definition modify (f : world -> world) : M unit := fun w => (Return tt, f w).
Definition gets {A} (f : world -> A) : M A := fun w => (Return (f w), w).

Notation "'let*' x ':=' m 'in' k" := (bind m (fun x => k))
  (at level 10, x name, m at level 100, k at level 200).

(** [v.key]: a [TypeError] on [undefined] and [null]; the keys the code reads
    are no built-in property of a primitive or of an array. *)
Definition get (v : value) (key : string) : M value :=
  match v with
  | Undefined | Null => throw (TypeError "Cannot read properties of undefined or null")
  | Obj fields => ret (own_property fields key)
  | _ => ret Undefined
  end.

(** [Date.now()] *)
Definition Date_now : M Z := fun w =>
  (Return (current (time w)),
   set_time (fun c => match later c with
                      | [] => c
                      | t :: rest => {| current := t; later := rest |}
                      end) w).

(** [await postgres.pool.query(...)]: consumes the next entry of [faults]. *)
Definition pool_query {A} (run : postgres -> A * postgres) : M A := fun w =>
  let db := pg w in
  let rest := tail (faults db) in
  let db0 := {| exchange_rows := exchange_rows db; trade_rows := trade_rows db;
                next_uuid := next_uuid db; faults := rest |} in
  match faults db with
  | Some e :: _ => (Throw e, set_pg (fun _ => db0) w)
  | _ => let (a, db1) := run db0 in (Return a, set_pg (fun _ => db1) w)
  end.

(** ** jsonwebtoken *)

(** [jwt.sign(payload, secret)] with a string secret makes an HS256 token: the
    claims in clear and a MAC of them under the secret. The library is not
    part of the repository; its MAC is modelled symbolically, as a term that
    names the secret and the claims it was computed from. *)
Module jwt.
Record payload := {
  trade_id : N;
  exchange_id : value;
  user_id : value;
  coin : value;
  amount : value;
  side : value;
  news_id : value;
  iat : Z;
  exp : Z
}.

Inductive mac := HS256 (secret : string) (signed : payload).

Record token := { claims : payload; signature : mac }.

Definition sign (p : payload) (secret : string) : token :=
  {| claims := p; signature := HS256 secret p |}.

(** What [jwt.verify(token, secret)] checks of the signature. *)
Definition verifies (t : token) (secret : string) : Prop :=
  signature t = HS256 secret (claims t).
End jwt.

(** ** Trade Token API *)

Section Backend.

(** node-postgres' text for a query parameter that is not a string (a
    string is sent as it is). *)
Variable prepareValue : value -> string.

Definition sql_text (v : value) : string :=
  match v with
  | Str s => s
  | other => prepareValue other
  end.

(** [app/models/postgres/widget.js] *)
Definition get_exchange_config (exchange_id : value)
  : M (option exchange_configurations.row) :=
  try_catch
    (pool_query (fun db =>
       (List.find (fun r =>
            String.eqb (exchange_configurations.exchange_id r) (sql_text exchange_id)
            && exchange_configurations.is_active r)
          (exchange_rows db), db)))
    (fun error => throw error).

Definition get_exchange_by_api_key (api_key : value)
  : M (option exchange_configurations.row) :=
  try_catch
    (pool_query (fun db =>
       (List.find (fun r =>
            String.eqb (exchange_configurations.api_key r) (sql_text api_key))
          (exchange_rows db), db)))
    (fun error => throw error).

Definition create_trade_log (exchange_id exchange_user_id trade_params : value)
  : M N :=
  try_catch
    (pool_query (fun db =>
       let trade_id := next_uuid db in
       (trade_id,
        {| exchange_rows := exchange_rows db;
           trade_rows := trade_rows db ++
             [ {| widget_trades.trade_id := trade_id;
                  widget_trades.exchange_id := sql_text exchange_id;
                  widget_trades.exchange_user_id := sql_text exchange_user_id;
                  widget_trades.trade_params := trade_params;
                  widget_trades.status := "initiated" |} ];
           next_uuid := N.succ trade_id;
           faults := faults db |})))
    (fun error => throw error).

(** [app/routes/widget/widget.service.js] *)
Definition TOKEN_EXPIRY_SECONDS : Z := 30.

Record signed_token := {
  token : jwt.token;
  trade_id : N;
  expires_in : Z
}.

Definition INVALID_EXCHANGE (msg : string) : error :=
  {| message := msg; code := Some "INVALID_EXCHANGE" |}.
Definition INVALID_TRADE_PARAMS (msg : string) : error :=
  {| message := msg; code := Some "INVALID_TRADE_PARAMS" |}.

(** [!e] and the short-circuit [a || b] on conditions that read properties. *)
Definition not_ (e : M value) : M bool := let* v := e in ret (negb (truthy v)).
Definition or_ (a b : M bool) : M bool := let* x := a in if x then ret true else b.

(** [amount <= 0], reached for a number only. *)
Definition le_zero_value (v : value) : bool :=
  match v with
  | Num n => le_zero n
  | _ => false
  end.

Definition includes_str (items : list string) (v : value) : bool :=
  existsb (is_str v) items.
#[global] Arguments includes_str : simpl never.

Definition create_signed_token (exchange_id exchange_user_id trade_params : value)
  : M signed_token :=
  let* exchange_config := get_exchange_config exchange_id in
  match exchange_config with
  | None => throw (INVALID_EXCHANGE "invalid or inactive exchange id")
  | Some exchange_config =>
    let secret_signing_key := exchange_configurations.secret_signing_key exchange_config in
    let* missing := or_ (not_ (get trade_params "coin"))
                 (or_ (not_ (get trade_params "amount"))
                      (not_ (get trade_params "side"))) in
    if missing then throw (INVALID_TRADE_PARAMS "invalid trade parameters") else
    let* side := get trade_params "side" in
    if negb (includes_str ["long"; "short"] side)
    then throw (INVALID_TRADE_PARAMS "side must be long or short") else
    let* amount := get trade_params "amount" in
    if negb (String.eqb (typeof amount) "number") || le_zero_value amount
    then throw (INVALID_TRADE_PARAMS "amount must be a positive number") else
    let* trade_id := create_trade_log exchange_id exchange_user_id trade_params in
    let* coin := get trade_params "coin" in
    let* amount := get trade_params "amount" in
    let* side := get trade_params "side" in
    let* news_id := get trade_params "news_id" in
    let* issued := Date_now in
    let* expires := Date_now in
    let payload :=
      {| jwt.trade_id := trade_id;
         jwt.exchange_id := exchange_id;
         jwt.user_id := exchange_user_id;
         jwt.coin := coin;
         jwt.amount := amount;
         jwt.side := side;
         jwt.news_id := or_else news_id Null;
         jwt.iat := issued / 1000;
         jwt.exp := expires / 1000 + TOKEN_EXPIRY_SECONDS |} in
    ret {| token := jwt.sign payload secret_signing_key;
           trade_id := trade_id;
           expires_in := TOKEN_EXPIRY_SECONDS |}
  end.

(** [app/routes/widget/widget.controller.js] *)
Inductive response_body :=
| Success (data : signed_token) (message : string)
| Failure (error : string).

Record response := { status : Z; body : response_body }.

(** Modelled from the spec: [success_response] and [error_response] of
    [#utils/response.js], which is not in the repository; section 6 gives
    the bodies [{ success: true, data }] and [{ success: false, error }]
    and the status of a failure is the one the controller passes. *)
Definition success_response (data : signed_token) (msg : string) : response :=
  {| status := 200; body := Success data msg |}.
Definition error_response (msg : string) (status : Z) : response :=
  {| status := status; body := Failure msg |}.

(** How a request ends: a response was sent, or the error went to Express'
    error middleware through [next(error)]. *)
Inductive handled :=
| Responded (r : response)
| Next (e : error).

Definition has_code (e : error) (c : string) : bool :=
  match code e with
  | Some c' => String.eqb c' c
  | None => false
  end.

(** The [catch] block of [generate_trade_token]. *)
Definition generate_trade_token_catch (error : error) : M handled :=
  if has_code error "INVALID_EXCHANGE"
  then ret (Responded (error_response (message error) 400))
  else if has_code error "INVALID_TRADE_PARAMS"
  then ret (Responded (error_response (message error) 400))
  else ret (Next error).

Definition generate_trade_token (req_body : value) : M handled :=
  try_catch
    (let* exchange_id := get req_body "exchange_id" in
     let* exchange_user_id := get req_body "exchange_user_id" in
     let* trade_params := get req_body "trade_params" in
     if negb (truthy exchange_id)
     then ret (Responded (error_response "exchange_id is required" 400)) else
     if negb (truthy exchange_user_id)
     then ret (Responded (error_response "exchange_user_id is required" 400)) else
     if negb (truthy trade_params) || negb (String.eqb (typeof trade_params) "object")
     then ret (Responded (error_response "trade_params object is required" 400)) else
     let* result := create_signed_token exchange_id exchange_user_id trade_params in
     ret (Responded (success_response result "token generated successfully")))
    generate_trade_token_catch.


(** ** Widget WebSocket *)

(** [JSON.parse(text)]. A JSON text is whitespace, a value, whitespace, and
    a value starts with a brace, a bracket, a double quote, a minus sign, a
    digit, or the first letter of [true], [false], [null]; any other text is
    a [SyntaxError]. What the
    built-in returns on the remaining texts is the parameter [JSON_value]. *)
Variable JSON_value : string -> option value.

Definition is_json_whitespace (a : ascii) : bool :=
  let n := nat_of_ascii a in
  ((n =? 32) || (n =? 9) || (n =? 10) || (n =? 13))%nat.

Fixpoint skip_whitespace (text : string) : string :=
  match text with
  | String a rest => if is_json_whitespace a then skip_whitespace rest else text
  | EmptyString => EmptyString
  end.

Definition starts_json_value (a : ascii) : bool :=
  let n := nat_of_ascii a in
  ((n =? 123) || (n =? 91) || (n =? 34) || (n =? 45)
   || ((48 <=? n) && (n <=? 57))
   || (n =? 116) || (n =? 102) || (n =? 110))%nat.

Definition JSON_parse (text : string) : outcome value :=
  match skip_whitespace text with
  | EmptyString => Throw (SyntaxError "Unexpected end of JSON input")
  | String a _ =>
    if starts_json_value a
    then match JSON_value text with
         | Some v => Return v
         | None => Throw (SyntaxError "Unexpected token in JSON")
         end
    else Throw (SyntaxError "Unexpected token in JSON")
  end.

(** *** Redis commands *)

Definition redis_get (key : string) : M (option Z) :=
  gets (fun w => strings (redis w) !! key).

Definition incr (key : string) : M Z := fun w =>
  let n := default 0 (strings (redis w) !! key) + 1 in
  (Return n,
   set_redis (fun r => {| strings := <[key := n]> (strings r);
                          sets := sets r; ttl := ttl r |}) w).

Definition decr (key : string) : M Z := fun w =>
  let n := default 0 (strings (redis w) !! key) - 1 in
  (Return n,
   set_redis (fun r => {| strings := <[key := n]> (strings r);
                          sets := sets r; ttl := ttl r |}) w).

Definition sadd (key member : string) : M unit :=
  modify (set_redis (fun r =>
    {| strings := strings r;
       sets := <[key := {[member]} ∪ default ∅ (sets r !! key)]> (sets r);
       ttl := ttl r |})).

(** [SREM] removes the key with its last member. *)
Definition srem (key member : string) : M unit :=
  modify (set_redis (fun r =>
    let members := default ∅ (sets r !! key) ∖ {[member]} in
    if decide (members = ∅)
    then {| strings := strings r; sets := delete key (sets r);
            ttl := if decide (is_Some (strings r !! key)) then ttl r
                   else delete key (ttl r) |}
    else {| strings := strings r; sets := <[key := members]> (sets r);
            ttl := ttl r |})).

(** [EXPIRE] sets a time to live on an existing key. The passing of that
    time is not modelled. *)
Definition expire (key : string) (seconds : Z) : M unit :=
  modify (set_redis (fun r =>
    if decide (is_Some (strings r !! key) ∨ is_Some (sets r !! key))
    then {| strings := strings r; sets := sets r;
            ttl := <[key := seconds]> (ttl r) |}
    else r)).

(** *** The socket object *)

(** [socket.send(data)]: the frame goes out on an open socket and is
    discarded otherwise. *)
Definition socket_send (socket_id : string) (frame : server_frame) : M unit :=
  modify (set_sockets (alter (fun s =>
    match readyState s with
    | OPEN => {| readyState := OPEN; sent := sent s ++ [frame];
                 close_call := close_call s |}
    | _ => s
    end) socket_id)).

(** [socket.close(code, reason)]: starts the closing handshake of an open
    socket; nothing on a socket already closing or closed. *)
Definition socket_close (socket_id : string) (code : Z) (reason : string) : M unit :=
  modify (set_sockets (alter (fun s =>
    match readyState s with
    | OPEN => {| readyState := CLOSING; sent := sent s;
                 close_call := Some (code, reason) |}
    | _ => s
    end) socket_id)).

Definition socket_readyState (socket_id : string) : M ready_state :=
  gets (fun w => from_option readyState CLOSED (sockets w !! socket_id)).

(** *** [app/websocket/widget/widget.connection_manager.js] *)

Definition REDIS_PREFIX : string := "widget".
Definition CONNECTION_TTL : Z := 86400.

Definition connections_key (exchange_id : string) : string :=
  REDIS_PREFIX +:+ ":connections:" +:+ exchange_id.
Definition count_key (exchange_id : string) : string :=
  REDIS_PREFIX +:+ ":connections:" +:+ exchange_id +:+ ":count".
Definition ip_key (ip : string) : string :=
  REDIS_PREFIX +:+ ":connections:ip:" +:+ ip.

Definition add_connection (socket_id exchange_id ip : string) : M unit :=
  let* now := Date_now in
  let* _ := modify (set_connections
              <[socket_id := {| conn_exchange_id := exchange_id; conn_ip := ip;
                                connected_at := now |}]>) in
  let* _ := sadd (connections_key exchange_id) socket_id in
  let* _ := expire (connections_key exchange_id) CONNECTION_TTL in
  let* _ := incr (count_key exchange_id) in
  let* _ := expire (count_key exchange_id) CONNECTION_TTL in
  let* _ := incr (ip_key ip) in
  expire (ip_key ip) CONNECTION_TTL.

Definition remove_connection (socket_id : string) : M unit :=
  let* connection := gets (fun w => connections w !! socket_id) in
  match connection with
  | None => ret tt
  | Some connection =>
    let exchange_id := conn_exchange_id connection in
    let ip := conn_ip connection in
    let* _ := modify (set_connections (delete socket_id)) in
    let* _ := srem (connections_key exchange_id) socket_id in
    let* _ := decr (count_key exchange_id) in
    let* _ := decr (ip_key ip) in
    ret tt
  end.

(** [parseInt(count || '0', 10)] of a stored integer *)
Definition get_exchange_connection_count (exchange_id : string) : M Z :=
  let* count := redis_get (count_key exchange_id) in
  ret (default 0 count).

Definition get_ip_connection_count (ip : string) : M Z :=
  let* count := redis_get (ip_key ip) in
  ret (default 0 count).

(** [graceful_shutdown]: every socket in the map is sent the notice and
    closed with 4009, then the map is cleared. *)
Definition close_message : server_frame :=
  Text (Obj [("type", Str "error"); ("error", Str "server shutting down");
             ("code", of_Z 4009)]).

Definition graceful_shutdown : M unit :=
  let* entries := gets (fun w => map_to_list (connections w)) in
  let* _ :=
    foldr (fun entry rest =>
             let* _ := try_catch
                         (let* _ := socket_send (fst entry) close_message in
                          socket_close (fst entry) 4009 "Server shutdown")
                         (fun _ => ret tt) in
             rest)
          (ret tt) entries in
  modify (set_connections (fun _ => ∅)).

(** *** [app/websocket/widget/widget.rate_limiter.js] *)

Definition DEFAULT_LIMITS : list (string * value) :=
  [("max_connections_per_exchange", of_Z 10000);
   ("max_connections_per_ip", of_Z 10);
   ("messages_per_minute", of_Z 60)].

(** [{ ...a, ...b }]: a property of [b] wins, whatever its value. *)
Definition spread (a b : list (string * value)) : list (string * value) :=
  b ++ a.

(** [count >= limit] for an integer [count]: [null] counts as [0], and the
    comparison with [undefined] or [NaN] is false. *)
Definition ge_value (count : Z) (limit : value) : bool :=
  match limit with
  | Null => (0 <=? count)%Z
  | Num (Finite q) => Qle_bool q (inject_Z count)
  | Num NegInfinity => true
  | _ => false
  end.

(** [count > limit] *)
Definition gt_value (count : Z) (limit : value) : bool :=
  match limit with
  | Null => (0 <? count)%Z
  | Num (Finite q) => Qle_bool q (inject_Z count) && negb (Qeq_bool q (inject_Z count))
  | Num NegInfinity => true
  | _ => false
  end.

Inductive rate_check :=
| Allowed
| Denied (code : Z) (reason : string).

Definition check_connection_limits (exchange_id ip : string)
    (exchange_limits : list (string * value)) : M rate_check :=
  let limits := spread DEFAULT_LIMITS exchange_limits in
  let* exchange_count := get_exchange_connection_count exchange_id in
  if ge_value exchange_count (own_property limits "max_connections_per_exchange")
  then ret (Denied 4004 "exchange connection limit reached") else
  let* ip_count := get_ip_connection_count ip in
  if ge_value ip_count (own_property limits "max_connections_per_ip")
  then ret (Denied 4005 "ip connection limit reached") else
  ret Allowed.

Definition minute_key (socket_id : string) (now : Z) : string :=
  "widget:rate:" +:+ socket_id +:+ ":" +:+ pretty (now / 60000).

(** [limit] is [None] when the caller leaves the third argument out. *)
Definition check_message_rate (socket_id : string) (exchange_id : option string)
    (limit : option value) : M rate_check :=
  let limit := default (own_property DEFAULT_LIMITS "messages_per_minute") limit in
  let* now := Date_now in
  let* count := incr (minute_key socket_id now) in
  let* _ := if (count =? 1)%Z then expire (minute_key socket_id now) 60 else ret tt in
  if gt_value count limit
  then ret (Denied 4006 "message rate limit exceeded")
  else ret Allowed.

(** *** [app/websocket/widget/widget.websocket.js] *)

Definition AUTH_TIMEOUT_MS : Z := 10000.
Definition HEARTBEAT_INTERVAL_MS : Z := 30000.

(** Reading and assigning the variables of the closure of [socket_id]. *)
Definition fresh_session (ip : string) (origin : option string) : session :=
  {| ip := ip; origin := origin; exchange_id := None; is_authenticated := false;
     auth_timeout := true; heartbeat_interval := false |}.

Definition var {A} (socket_id : string) (f : session -> A) (d : A) : M A :=
  gets (fun w => from_option f d (sessions w !! socket_id)).

Definition assign (socket_id : string) (f : session -> session) : M unit :=
  modify (set_sessions (alter f socket_id)).

Definition error_frame (error : string) (code : Z) : server_frame :=
  Text (Obj [("type", Str "error"); ("error", Str error); ("code", of_Z code)]).

Definition send_error (socket_id : string) (error : string) (code : Z) : M unit :=
  try_catch (socket_send socket_id (error_frame error code)) (fun _ => ret tt).

Definition set_auth_timeout (armed : bool) (s : session) : session :=
  {| ip := ip s; origin := origin s; exchange_id := exchange_id s;
     is_authenticated := is_authenticated s; auth_timeout := armed;
     heartbeat_interval := heartbeat_interval s |}.
Definition set_heartbeat_interval (armed : bool) (s : session) : session :=
  {| ip := ip s; origin := origin s; exchange_id := exchange_id s;
     is_authenticated := is_authenticated s; auth_timeout := auth_timeout s;
     heartbeat_interval := armed |}.
Definition set_is_authenticated (b : bool) (s : session) : session :=
  {| ip := ip s; origin := origin s; exchange_id := exchange_id s;
     is_authenticated := b; auth_timeout := auth_timeout s;
     heartbeat_interval := heartbeat_interval s |}.
Definition set_exchange_id (id : option string) (s : session) : session :=
  {| ip := ip s; origin := origin s; exchange_id := id;
     is_authenticated := is_authenticated s; auth_timeout := auth_timeout s;
     heartbeat_interval := heartbeat_interval s |}.

(** [clearTimeout] and [clearInterval] disarm the timers. *)
Definition cleanup (socket_id : string) : M unit :=
  let* _ := assign socket_id (set_auth_timeout false) in
  assign socket_id (set_heartbeat_interval false).

Definition column (c : option Z) : value :=
  match c with
  | Some z => of_Z z
  | None => Null
  end.

Definition origin_truthy (origin : option string) : bool :=
  match origin with
  | Some o => negb (String.eqb o "")
  | None => false
  end.

Definition handle_auth (socket_id : string) (message : value) : M unit :=
  let* invalid := or_ (let* type := get message "type" in
                       ret (negb (is_str type "auth")))
                      (not_ (get message "api_key")) in
  if invalid then
    let* _ := send_error socket_id "invalid auth message" 4002 in
    socket_close socket_id 4002 "Invalid auth"
  else
  let* api_key := get message "api_key" in
  let* exchange_config := get_exchange_by_api_key api_key in
  match exchange_config with
  | None =>
    let* _ := send_error socket_id "invalid api key" 4002 in
    socket_close socket_id 4002 "Invalid API key"
  | Some exchange_config =>
    if negb (exchange_configurations.is_active exchange_config) then
      let* _ := send_error socket_id "exchange inactive" 4003 in
      socket_close socket_id 4003 "Exchange inactive"
    else
    let* origin := var socket_id origin None in
    let allowed_origins := exchange_configurations.allowed_origins exchange_config in
    if (0 <? Z.of_nat (length allowed_origins))%Z && origin_truthy origin
       && negb (existsb (String.eqb (default "" origin)) allowed_origins)
    then
      let* _ := send_error socket_id "origin not allowed" 4008 in
      socket_close socket_id 4008 "Origin not allowed"
    else
    let* ip := var socket_id ip "" in
    let* rate_check :=
      check_connection_limits
        (exchange_configurations.exchange_id exchange_config) ip
        [("max_connections_per_exchange",
          column (exchange_configurations.rate_limit_connections exchange_config))] in
    match rate_check with
    | Denied code reason =>
      let* _ := send_error socket_id reason code in
      socket_close socket_id code reason
    | Allowed =>
      let id := exchange_configurations.exchange_id exchange_config in
      let* _ := assign socket_id (set_auth_timeout false) in
      let* _ := assign socket_id (set_is_authenticated true) in
      let* _ := assign socket_id (set_exchange_id (Some id)) in
      let* _ := add_connection socket_id id ip in
      let* _ := assign socket_id (set_heartbeat_interval true) in
      socket_send socket_id
        (Text (Obj [("type", Str "auth_success"); ("exchange_id", Str id)]))
    end
  end.

Definition handle_message (socket_id : string) (message : value) : M unit :=
  let* exchange_id := var socket_id exchange_id None in
  let* rate_check := check_message_rate socket_id exchange_id None in
  match rate_check with
  | Denied code reason => send_error socket_id reason code
  | Allowed =>
    let* type := get message "type" in
    if is_str type "ping"
    then socket_send socket_id (Text (Obj [("type", Str "pong")]))
    else ret tt
  end.

(** [socket.on('message', ...)] *)
Definition on_message (socket_id : string) (data : string) : M unit :=
  try_catch
    (let* message := (fun w => (JSON_parse data, w)) in
     let* is_authenticated := var socket_id is_authenticated false in
     if negb is_authenticated
     then handle_auth socket_id message
     else handle_message socket_id message)
    (fun error => send_error socket_id "invalid message format" 4007).

(** [socket.on('close', ...)] *)
Definition on_close (socket_id : string) (code : Z) : M unit :=
  let* _ := cleanup socket_id in
  let* is_authenticated := var socket_id is_authenticated false in
  if is_authenticated then remove_connection socket_id else ret tt.

(** The callback of the authentication timer. *)
Definition on_auth_timeout (socket_id : string) : M unit :=
  let* is_authenticated := var socket_id is_authenticated false in
  if negb is_authenticated then
    let* _ := send_error socket_id "authentication timeout" 4001 in
    socket_close socket_id 4001 "Auth timeout"
  else ret tt.

(** The callback of the heartbeat interval. *)
Definition on_heartbeat (socket_id : string) : M unit :=
  let* state := socket_readyState socket_id in
  match state with
  | OPEN => socket_send socket_id PingFrame
  | _ => ret tt
  end.

(** [wss.on('connection', ...)]: [socket_id] is the identifier
    [generate_socket_id()] made and [ip] the result of [get_client_ip(req)]. *)
Definition on_connection (socket_id ip : string) (origin : option string) : M unit :=
  let* _ := modify (set_sockets
              <[socket_id := {| readyState := OPEN; sent := []; close_call := None |}]>) in
  modify (set_sessions <[socket_id := fresh_session ip origin]>).

(** What the runtime delivers to the server. A timer callback runs only
    while its timer is armed, and a socket is closed when its close event is
    emitted. *)
Inductive event :=
| Connection (socket_id ip : string) (origin : option string)
| Message (socket_id data : string)
| Close (socket_id : string) (code : Z)
| AuthTimeout (socket_id : string)
| Heartbeat (socket_id : string)
| Shutdown.

Definition deliver (ev : event) : M unit :=
  match ev with
  | Connection socket_id ip origin => on_connection socket_id ip origin
  | Message socket_id data => on_message socket_id data
  | Close socket_id code =>
    let* _ := modify (set_sockets (alter (fun s =>
                {| readyState := CLOSED; sent := sent s;
                   close_call := close_call s |}) socket_id)) in
    on_close socket_id code
  | AuthTimeout socket_id =>
    let* armed := var socket_id auth_timeout false in
    if armed then
      let* _ := assign socket_id (set_auth_timeout false) in
      on_auth_timeout socket_id
    else ret tt
  | Heartbeat socket_id =>
    let* armed := var socket_id heartbeat_interval false in
    if armed then on_heartbeat socket_id else ret tt
  | Shutdown => graceful_shutdown
  end.

Definition run (events : list event) (w : world) : world :=
  foldl (fun w ev => snd (deliver ev w)) w events.

End Backend.

(** * Vocabulary of the properties *)

(** ** What a query meets *)

Definition next_fault (db : postgres) : option error :=
  match faults db with
  | Some e :: _ => Some e
  | _ => None
  end.

(** The world once a query has been sent: one entry of [faults] is used. *)
Definition after_query (w : world) : world :=
  set_pg (fun db => {| exchange_rows := exchange_rows db; trade_rows := trade_rows db;
                       next_uuid := next_uuid db; faults := tail (faults db) |}) w.

(** No row of [exchange_configurations] is an active exchange called [id]. *)
Definition no_active_exchange (db : postgres) (id : string) : Prop :=
  forall r, In r (exchange_rows db) ->
            exchange_configurations.exchange_id r = id ->
            exchange_configurations.is_active r = false.

(** [cfg] is the row the lookup by [id] returns. *)
Definition active_exchange (db : postgres) (id : string)
    (cfg : exchange_configurations.row) : Prop :=
  List.find (fun r => String.eqb (exchange_configurations.exchange_id r) id
                      && exchange_configurations.is_active r)
            (exchange_rows db) = Some cfg.

(** ** What the service accepts as trade parameters *)

(** [trade_params.key] of a value that passed the controller's guard. *)
Definition property (v : value) (key : string) : value :=
  match v with
  | Obj fields => own_property fields key
  | _ => Undefined
  end.

(** A number above zero; [Infinity] is one. *)
Definition positive_number (v : value) : bool :=
  match v with
  | Num (Finite q) => negb (Qle_bool q 0)
  | Num PosInfinity => true
  | _ => false
  end.

Definition long_or_short (v : value) : bool := is_str v "long" || is_str v "short".

(** The parameters [create_signed_token] lets through: a truthy [coin], a
    [side] that is the string long or short, an [amount] that is a number
    above zero. *)
Definition trade_params_accepted (trade_params : value) : bool :=
  truthy (property trade_params "coin")
  && long_or_short (property trade_params "side")
  && positive_number (property trade_params "amount").

(** The parameters the specification calls valid, for configured bounds
    [lo] and [hi]: a non-empty asset symbol, a side that is long or short, an
    amount that is finite, positive and within the bounds. *)
Definition structurally_valid (lo hi : Q) (trade_params : value) : bool :=
  match property trade_params "coin" with
  | Str s => negb (String.eqb s "")
  | _ => false
  end
  && long_or_short (property trade_params "side")
  && match property trade_params "amount" with
     | Num (Finite q) => negb (Qle_bool q 0) && Qle_bool lo q && Qle_bool q hi
     | _ => false
     end.

(** An amount above the upper bound [hi]: the next one up, or 1 when the
    bound is not positive. *)
Definition above_bound (hi : Q) : Q := if Qle_bool hi 0 then 1%Q else (hi + 1)%Q.

(** The world after the next [Date.now()]. *)
Definition tick (w : world) : world := snd (Date_now w).

(** The row [create_trade_log] inserts, and the world once it is in. *)
Definition trade_row (prepareValue : value -> string) (db : postgres)
    (exchange_id exchange_user_id trade_params : value) : widget_trades.row :=
  {| widget_trades.trade_id := next_uuid db;
     widget_trades.exchange_id := sql_text prepareValue exchange_id;
     widget_trades.exchange_user_id := sql_text prepareValue exchange_user_id;
     widget_trades.trade_params := trade_params;
     widget_trades.status := "initiated" |}.

Definition with_trade_row (row : widget_trades.row) (w : world) : world :=
  set_pg (fun db => {| exchange_rows := exchange_rows db;
                       trade_rows := trade_rows db ++ [row];
                       next_uuid := N.succ (next_uuid db);
                       faults := faults db |}) w.

(** The claims of the token issued for a request, from the two clock
    readings taken while it is made. *)
Definition token_claims (trade_id : N) (exchange_id exchange_user_id trade_params : value)
    (first_reading second_reading : Z) : jwt.payload :=
  {| jwt.trade_id := trade_id;
     jwt.exchange_id := exchange_id;
     jwt.user_id := exchange_user_id;
     jwt.coin := property trade_params "coin";
     jwt.amount := property trade_params "amount";
     jwt.side := property trade_params "side";
     jwt.news_id := or_else (property trade_params "news_id") Null;
     jwt.iat := first_reading / 1000;
     jwt.exp := second_reading / 1000 + 30 |}.

(** ** How a call of the service ends *)

Definition is_invalid_trade_params {A} (r : outcome A) : bool :=
  match r with
  | Throw e => has_code e "INVALID_TRADE_PARAMS"
  | Return _ => false
  end.

(** The persistence step as the specification words it: a write that fails
    is tried once more, and only the failure of the second try is reported. *)
Definition create_trade_log_with_retry (prepareValue : value -> string)
    (exchange_id exchange_user_id trade_params : value) : M N :=
  try_catch (create_trade_log prepareValue exchange_id exchange_user_id trade_params)
    (fun _ => create_trade_log prepareValue exchange_id exchange_user_id trade_params).

(** ** Sample data *)

Definition no_text (v : value) : string := "".

Definition acme (active : bool) : exchange_configurations.row :=
  {| exchange_configurations.exchange_id := "acme";
     exchange_configurations.api_key := "wk_1";
     exchange_configurations.secret_signing_key := "sk_1";
     exchange_configurations.display_name := "Acme";
     exchange_configurations.theme_config := Obj [];
     exchange_configurations.feature_flags := Obj [];
     exchange_configurations.allowed_origins := [];
     exchange_configurations.rate_limit_connections := Some 2;
     exchange_configurations.rate_limit_messages_per_minute := Some 60;
     exchange_configurations.is_active := active |}.

Definition database (rows : list exchange_configurations.row)
    (faults : list (option error)) : postgres :=
  {| exchange_rows := rows; trade_rows := []; next_uuid := 0%N; faults := faults |}.

Definition server (db : postgres) (c : clock) : world :=
  {| pg := db;
     redis := {| strings := ∅; sets := ∅; ttl := ∅ |};
     connections := ∅; sockets := ∅; sessions := ∅;
     time := c |}.

Definition trade_params_of (amount : value) : value :=
  Obj [("coin", Str "BTC"); ("amount", amount); ("side", Str "long")].

Definition issuance_request (exchange_id : string) (amount : value) : value :=
  Obj [("exchange_id", Str exchange_id); ("exchange_user_id", Str "u1");
       ("trade_params", trade_params_of amount)].

Definition midnight : clock := {| current := 0; later := [] |}.

(** Two readings of the clock one millisecond apart, on either side of a
    second boundary. *)
Definition second_boundary : clock := {| current := 1999; later := [2000] |}.

(** The server with the one exchange [acme], inactive or active. *)
Definition inactive_acme : world := server (database [acme false] []) midnight.
Definition active_acme (faults : list (option error)) (c : clock) : world :=
  server (database [acme true] faults) c.

(** A connection error of the database driver. *)
Definition connection_refused : error :=
  {| message := "connect ECONNREFUSED"; code := Some "ECONNREFUSED" |}.

(** ** What a client and the limiter see *)

(** The frames a socket has put on the wire and its close code, if any. *)
Definition wire (w : world) (socket_id : string)
  : list server_frame * option (Z * string) :=
  from_option (fun s => (sent s, close_call s)) ([], None) (sockets w !! socket_id).

Definition close_code (w : world) (socket_id : string) : option Z :=
  fst <$> snd (wire w socket_id).

Definition state_of (w : world) (socket_id : string) : option ready_state :=
  readyState <$> sockets w !! socket_id.

(** A value whose properties can be read: anything but [undefined] and
    [null]. *)
Definition readable (message : value) : bool :=
  match message with
  | Undefined | Null => false
  | _ => true
  end.

(** The connection counts admission control reads. *)
Definition exchange_count (w : world) (exchange_id : string) : Z :=
  default 0 (strings (redis w) !! count_key exchange_id).
Definition ip_count (w : world) (ip : string) : Z :=
  default 0 (strings (redis w) !! ip_key ip).

(** Messages used so far in the minute of [now] by a socket. *)
Definition messages_this_minute (w : world) (socket_id : string) (now : Z) : Z :=
  default 0 (strings (redis w) !! minute_key socket_id now).

(** ** Sample frames *)

Definition quote : string := String (ascii_of_nat 34) "".
Definition json_string (s : string) : string := quote +:+ s +:+ quote.

Definition auth_text (key : string) : string :=
  "{" +:+ json_string "type" +:+ ":" +:+ json_string "auth" +:+ ","
      +:+ json_string "api_key" +:+ ":" +:+ json_string key +:+ "}".
Definition typed_text (type : string) : string :=
  "{" +:+ json_string "type" +:+ ":" +:+ json_string type +:+ "}".

Definition auth_message (key : string) : value :=
  Obj [("type", Str "auth"); ("api_key", Str key)].
Definition typed_message (type : string) : value := Obj [("type", Str type)].

(** [JSON.parse] on the sample texts. *)
Definition sample_json (text : string) : option value :=
  if String.eqb text (auth_text "wk_1") then Some (auth_message "wk_1")
  else if String.eqb text (auth_text "wk_none") then Some (auth_message "wk_none")
  else if String.eqb text (typed_text "ping") then Some (typed_message "ping")
  else if String.eqb text (typed_text "subscribe") then Some (typed_message "subscribe")
  else if String.eqb text "null" then Some Null
  else None.

(** A widget connects from 10.0.0.1 and authenticates with acme's key. *)
Definition connect_and_authenticate (socket_id : string) : list event :=
  [Connection socket_id "10.0.0.1" None; Message socket_id (auth_text "wk_1")].

(** ** Authentication requests and the message budget *)

(** The row the lookup by connection key returns. *)
Definition exchange_with_key (db : postgres) (key : string)
  : option exchange_configurations.row :=
  List.find (fun r => String.eqb (exchange_configurations.api_key r) key)
            (exchange_rows db).

(** [message] is an authentication request that presents [key]. *)
Definition presents_key (message key : value) : Prop :=
  readable message = true
  /\ is_str (property message "type") "auth" = true
  /\ property message "api_key" = key
  /\ truthy key = true.

(** The world once [check_message_rate] has counted a message of the
    socket: the clock was read, the counter of the current minute is one
    higher, and a counter that starts gets its time to live. *)
Definition counted (socket_id : string) (w : world) : world :=
  let now := current (time w) in
  let n := messages_this_minute w socket_id now + 1 in
  set_redis (fun r =>
    {| strings := <[minute_key socket_id now := n]> (strings r);
       sets := sets r;
       ttl := if (n =? 1)%Z then <[minute_key socket_id now := 60]> (ttl r)
              else ttl r |}) (tick w).

(** The server once a widget has connected to it, and once that widget has
    authenticated for the active exchange. *)
Definition connected_widget (w : world) : world :=
  run no_text sample_json [Connection "s1" "10.0.0.1" None] w.
Definition authenticated_widget : world :=
  run no_text sample_json (connect_and_authenticate "s1") (active_acme [] midnight).

Definition auth_success_frame : server_frame :=
  Text (Obj [("type", Str "auth_success"); ("exchange_id", Str "acme")]).
Definition pong_frame : server_frame := Text (Obj [("type", Str "pong")]).

#[global] Arguments next_fault : simpl never.
#[global] Arguments after_query : simpl never.
#[global] Arguments tick : simpl never.
#[global] Arguments trade_row : simpl never.
#[global] Arguments with_trade_row : simpl never.
#[global] Arguments token_claims : simpl never.
#[global] Arguments counted : simpl never.
#[global] Arguments gt_value : simpl never.
#[global] Arguments ge_value : simpl never.
#[global] Arguments of_Z : simpl never.
#[global] Arguments minute_key : simpl never.
#[global] Arguments count_key : simpl never.
#[global] Arguments ip_key : simpl never.
#[global] Arguments connections_key : simpl never.

(** ** Admission of a connection *)

(** The origin check of [handle_auth]: an allow-list is configured, the
    request declares an origin, and the list does not have it. *)
Definition origin_blocked (cfg : exchange_configurations.row)
    (origin : option string) : bool :=
  (0 <? Z.of_nat (length (exchange_configurations.allowed_origins cfg)))%Z
  && origin_truthy origin
  && negb (existsb (String.eqb (default "" origin))
             (exchange_configurations.allowed_origins cfg)).

(** The limits [handle_auth] passes to [check_connection_limits]. *)
Definition exchange_limits (cfg : exchange_configurations.row)
  : list (string * value) :=
  [("max_connections_per_exchange",
    column (exchange_configurations.rate_limit_connections cfg))].

(** The session variables once [handle_auth] has accepted the exchange
    [id]. *)
Definition authenticated_as (id : string) (s : session) : session :=
  {| ip := ip s; origin := origin s; exchange_id := Some id;
     is_authenticated := true; auth_timeout := false; heartbeat_interval := true |}.

(** The last part of [handle_auth], run once every check has passed. *)
Definition accept_connection (socket_id id ip : string) : M unit :=
  let* _ := assign socket_id (set_auth_timeout false) in
  let* _ := assign socket_id (set_is_authenticated true) in
  let* _ := assign socket_id (set_exchange_id (Some id)) in
  let* _ := add_connection socket_id id ip in
  let* _ := assign socket_id (set_heartbeat_interval true) in
  socket_send socket_id
    (Text (Obj [("type", Str "auth_success"); ("exchange_id", Str id)])).

(** What [check_connection_limits] answers for the counts [ec] of the
    exchange and [ic] of the address under the exchange's limit. *)
Definition admission (limit : option Z) (ec ic : Z) : rate_check :=
  if (default 0 limit <=? ec)%Z
  then Denied 4004 "exchange connection limit reached"
  else if (10 <=? ic)%Z
       then Denied 4005 "ip connection limit reached"
       else Allowed.

(** The counters after one increment of the exchange's count and one of the
    address's count. *)
Definition counted_connection (exchange_id ip : string) (m : gmap string Z)
  : gmap string Z :=
  let once := <[count_key exchange_id := default 0 (m !! count_key exchange_id) + 1]> m in
  <[ip_key ip := default 0 (once !! ip_key ip) + 1]> once.


(** ** Configuration API *)

(** What [widget_service.get_config] returns: the public fields of the
    exchange. *)
Record public_config := {
  config_exchange_id : string;
  config_display_name : string;
  config_theme_config : value;
  config_feature_flags : value
}.

Definition service_get_config (prepareValue : value -> string) (exchange_id : value)
  : M (option public_config) :=
  let* exchange_config := get_exchange_config prepareValue exchange_id in
  match exchange_config with
  | None => ret None
  | Some exchange_config =>
    ret (Some {| config_exchange_id :=
                   exchange_configurations.exchange_id exchange_config;
                 config_display_name :=
                   exchange_configurations.display_name exchange_config;
                 config_theme_config :=
                   exchange_configurations.theme_config exchange_config;
                 config_feature_flags :=
                   exchange_configurations.feature_flags exchange_config |})
  end.

Inductive config_body :=
| ConfigSuccess (data : public_config)
| ConfigFailure (error : string).

(** How a configuration request ends: a status and a body, or
    [next(error)]. *)
Inductive config_handled :=
| ConfigResponded (status : Z) (body : config_body)
| ConfigNext (e : error).

(** [widget_controller.get_config] on the query parameter [id]; the status
    of [success_response] is 200, as for the token. *)
Definition controller_get_config (prepareValue : value -> string) (id : value)
  : M config_handled :=
  try_catch
    (if negb (truthy id)
     then ret (ConfigResponded 400
                 (ConfigFailure "exchange id query parameter is required")) else
     let* config := service_get_config prepareValue id in
     match config with
     | None => ret (ConfigResponded 404 (ConfigFailure "exchange not found"))
     | Some config => ret (ConfigResponded 200 (ConfigSuccess config))
     end)
    (fun error => ret (ConfigNext error)).


(** ** Broadcast *)

(** The body of the loops of [broadcast_to_all] and [broadcast_to_exchange]:
    the payload goes to a socket that is open, and [sent] counts it. *)
Definition broadcast_step (payload : server_frame) (socket_id : string) (sent : Z)
  : M Z :=
  try_catch
    (let* state := socket_readyState socket_id in
     match state with
     | OPEN => let* _ := socket_send socket_id payload in ret (sent + 1)
     | _ => ret sent
     end)
    (fun _ => ret sent).

(** [for (const [socket_id, conn] of this.connections) ...] with the
    variable the loop updates. *)
Fixpoint for_each_connection {A} (entries : list (string * connection))
    (body : string -> connection -> A -> M A) (acc : A) : M A :=
  match entries with
  | [] => ret acc
  | (socket_id, conn) :: rest =>
    let* acc := body socket_id conn acc in
    for_each_connection rest body acc
  end.

Definition broadcast_to_all (message : value) : M Z :=
  let payload := Text message in
  let* entries := gets (fun w => map_to_list (connections w)) in
  for_each_connection entries
    (fun socket_id conn sent => broadcast_step payload socket_id sent) 0.

Definition broadcast_to_exchange (exchange_id : string) (message : value) : M Z :=
  let payload := Text message in
  let* entries := gets (fun w => map_to_list (connections w)) in
  for_each_connection entries
    (fun socket_id conn sent =>
       if String.eqb (conn_exchange_id conn) exchange_id
       then broadcast_step payload socket_id sent
       else ret sent) 0.

(** A socket after a frame was sent to it, and after the shutdown notice. *)
Definition with_frame (payload : server_frame) (s : socket) : socket :=
  match readyState s with
  | OPEN => {| readyState := OPEN; sent := sent s ++ [payload];
               close_call := close_call s |}
  | _ => s
  end.

Definition shut_down (s : socket) : socket :=
  match readyState s with
  | OPEN => {| readyState := CLOSING; sent := sent s ++ [close_message];
               close_call := Some (4009, "Server shutdown") |}
  | _ => s
  end.

Definition is_open (w : world) (socket_id : string) : bool :=
  match sockets w !! socket_id with
  | Some s => match readyState s with OPEN => true | _ => false end
  | None => false
  end.

(** The sockets after [f] was applied to the socket of every entry that
    [selected] picks. *)
Definition alter_selected (f : socket -> socket) (selected : connection -> bool)
    (entries : list (string * connection)) (m : gmap string socket)
  : gmap string socket :=
  foldl (fun m entry => if selected (snd entry) then alter f (fst entry) m else m)
        m entries.

(** The registered connections a broadcast reaches. *)
Definition recipients (selected : connection -> bool) (w : world)
  : list (string * connection) :=
  List.filter (fun entry => selected (snd entry) && is_open w (fst entry))
              (map_to_list (connections w)).


(** ** More sample data *)

(** The exchange acme with an allow-list of origins and a connection
    limit. *)
Definition acme_with (origins : list string) (limit : option Z)
  : exchange_configurations.row :=
  {| exchange_configurations.exchange_id := "acme";
     exchange_configurations.api_key := "wk_1";
     exchange_configurations.secret_signing_key := "sk_1";
     exchange_configurations.display_name := "Acme";
     exchange_configurations.theme_config := Obj [];
     exchange_configurations.feature_flags := Obj [];
     exchange_configurations.allowed_origins := origins;
     exchange_configurations.rate_limit_connections := limit;
     exchange_configurations.rate_limit_messages_per_minute := Some 60;
     exchange_configurations.is_active := true |}.

(** The server with that exchange, once a widget has connected to it from
    10.0.0.1 with the Origin header [origin]. *)
Definition widget_from (origin : option string) (origins : list string)
    (limit : option Z) : world :=
  run no_text sample_json [Connection "s1" "10.0.0.1" origin]
    (server (database [acme_with origins limit] []) midnight).

(** * The widget's client *)

(** [src/services/websocket_service.ts]: the client of the gateway, which
    reconnects with a growing delay. The state is the fields of
    [WebSocketService]; [max_reconnect_attempts] and [reconnect_delay] are
    never assigned after their initialisers. *)
Module websocket_service.

Record service := {
  socket : bool;              (* [this.socket] is not null *)
  config : bool;              (* [this.config] is not null *)
  reconnect_attempts : nat;
  ping_interval : bool        (* [this.ping_interval] is not null *)
}.

Definition max_reconnect_attempts : nat := 5.
Definition reconnect_delay : Z := 1000.

(** [new WebSocketService()] *)
Definition initial : service :=
  {| socket := false; config := false; reconnect_attempts := 0;
     ping_interval := false |}.

(** [establish_connection]: nothing without a configuration; otherwise a
    new socket replaces the current one. *)
Definition establish_connection (s : service) : service :=
  if negb (config s) then s
  else {| socket := true; config := config s;
          reconnect_attempts := reconnect_attempts s;
          ping_interval := ping_interval s |}.

Definition connect (s : service) : service :=
  establish_connection
    {| socket := socket s; config := true;
       reconnect_attempts := reconnect_attempts s;
       ping_interval := ping_interval s |}.

Definition stop_ping_interval (s : service) : service :=
  {| socket := socket s; config := config s;
     reconnect_attempts := reconnect_attempts s;
     ping_interval := false |}.

(** [schedule_reconnect]: the new state and the delay, in milliseconds, of
    the timer that will call [establish_connection]. *)
Definition schedule_reconnect (s : service) : service * Z :=
  let attempts := S (reconnect_attempts s) in
  let delay := (reconnect_delay * 2 ^ Z.of_nat (attempts - 1))%Z in
  ({| socket := socket s; config := config s;
      reconnect_attempts := attempts;
      ping_interval := ping_interval s |}, delay).

(** [socket.onopen]: the authentication message is sent, the ping timer
    started and the count of attempts reset. *)
Definition onopen (s : service) : service :=
  {| socket := socket s; config := config s;
     reconnect_attempts := 0;
     ping_interval := true |}.

(** [socket.onclose] for a close event with [code]: the new state and the
    delay of the reconnect it scheduled, if any. *)
Definition onclose (code : Z) (s : service) : service * option Z :=
  let s := stop_ping_interval s in
  if negb (code =? 1000)%Z && (reconnect_attempts s <? max_reconnect_attempts)%nat
  then let (s', delay) := schedule_reconnect s in (s', Some delay)
  else (s, None).

(** [disconnect]: the socket is closed with 1000 and forgotten with the
    configuration. *)
Definition disconnect (s : service) : service :=
  {| socket := false; config := false; reconnect_attempts := 0;
     ping_interval := false |}.

(** The delays a client waits while the server cannot be reached: each
    connection closes with [code] before it opens, the close handler runs,
    and the timer it set, if any, starts the next connection. At most
    [connections] connections are followed. *)
Fixpoint retries (connections : nat) (code : Z) (s : service) : list Z :=
  match connections with
  | O => []
  | S connections =>
    match onclose code s with
    | (s', Some delay) => delay :: retries connections code (establish_connection s')
    | (_, None) => []
    end
  end.

End websocket_service.

(** * Properties of the trade-token API *)

Lemma next_fault_after_query (w : world) :
  next_fault (pg (after_query w))
  = match tail (faults (pg w)) with
    | Some e :: _ => Some e
    | _ => None
    end.
Proof. reflexivity. Qed.

Lemma pool_query_runs {A} (run : postgres -> A * postgres) (w : world) :
  next_fault (pg w) = None ->
  pool_query run w =
    (Return (fst (run (pg (after_query w)))),
     set_pg (fun _ => snd (run (pg (after_query w)))) w).
Proof.
  unfold next_fault, pool_query, after_query, set_pg. intros H. cbn.
  destruct (faults (pg w)) as [|[e|] rest]; try discriminate;
    cbn; destruct (run _); reflexivity.
Qed.

Lemma pool_query_fails {A} (run : postgres -> A * postgres) (w : world) e :
  next_fault (pg w) = Some e ->
  pool_query run w = (Throw e, after_query w).
Proof.
  unfold next_fault, pool_query, after_query, set_pg. intros H. cbn.
  destruct (faults (pg w)) as [|[e'|] rest]; try discriminate.
  injection H as ->. reflexivity.
Qed.

Lemma set_pg_after_query (w : world) :
  set_pg (fun _ => pg (after_query w)) w = after_query w.
Proof. reflexivity. Qed.

Lemma find_no_active_exchange (db : postgres) (id : string) :
  no_active_exchange db id ->
  List.find (fun r => String.eqb (exchange_configurations.exchange_id r) id
                      && exchange_configurations.is_active r)
            (exchange_rows db) = None.
Proof.
  unfold no_active_exchange. induction (exchange_rows db) as [|r rows IH]; intros H.
  - reflexivity.
  - cbn. destruct (String.eqb_spec (exchange_configurations.exchange_id r) id) as [E|E].
    + rewrite (H r (or_introl eq_refl) E). cbn. apply IH. intros r' Hin. apply H. now right.
    + cbn. apply IH. intros r' Hin. apply H. now right.
Qed.

Lemma positive_number_checks (amount : value) :
  positive_number amount
  = truthy amount && String.eqb (typeof amount) "number" && negb (le_zero_value amount).
Proof.
  destruct amount as [| | b | [q| | |] | s | items | fields]; cbn;
    try reflexivity; try (destruct b; reflexivity).
  - destruct (Qle_bool q 0) eqn:L; cbn.
    + now rewrite andb_false_r.
    + destruct (Qeq_bool q 0) eqn:E; [|reflexivity].
      apply Qeq_bool_iff in E. assert (Qle_bool q 0 = true) as L'.
      { apply Qle_bool_iff. rewrite E. apply Qle_refl. }
      congruence.
  - now rewrite andb_false_r.
Qed.

Lemma long_or_short_includes (side : value) :
  includes_str ["long"; "short"] side = long_or_short side.
Proof. unfold includes_str, long_or_short. cbn. now rewrite orb_false_r. Qed.

Lemma get_property (trade_params : value) (key : string) (w : world) :
  truthy trade_params = true -> typeof trade_params = "object" ->
  get trade_params key w = (Return (property trade_params key), w).
Proof. destruct trade_params; cbn; intros; try discriminate; reflexivity. Qed.

Section TradeTokenProperties.

Variable prepareValue : value -> string.

Lemma get_exchange_config_none (w : world) (exchange_id : value) :
  no_active_exchange (pg w) (sql_text prepareValue exchange_id) ->
  next_fault (pg w) = None ->
  get_exchange_config prepareValue exchange_id w = (Return None, after_query w).
Proof.
  intros Hno Hq. unfold get_exchange_config, try_catch.
  rewrite pool_query_runs by exact Hq. cbn.
  change (exchange_rows (pg (after_query w))) with (exchange_rows (pg w)).
  rewrite (find_no_active_exchange (pg w) _ Hno). reflexivity.
Qed.

Lemma get_exchange_config_some (w : world) (exchange_id : value) cfg :
  active_exchange (pg w) (sql_text prepareValue exchange_id) cfg ->
  next_fault (pg w) = None ->
  get_exchange_config prepareValue exchange_id w = (Return (Some cfg), after_query w).
Proof.
  intros Hcfg Hq. unfold get_exchange_config, try_catch.
  rewrite pool_query_runs by exact Hq. cbn.
  change (exchange_rows (pg (after_query w))) with (exchange_rows (pg w)).
  unfold active_exchange in Hcfg. rewrite Hcfg. reflexivity.
Qed.

Lemma create_trade_log_runs (w : world) (exchange_id exchange_user_id trade_params : value) :
  next_fault (pg w) = None ->
  create_trade_log prepareValue exchange_id exchange_user_id trade_params w
  = (Return (next_uuid (pg w)),
     with_trade_row (trade_row prepareValue (pg w) exchange_id exchange_user_id trade_params)
       (after_query w)).
Proof.
  intros Hq. unfold create_trade_log, try_catch.
  rewrite pool_query_runs by exact Hq. reflexivity.
Qed.

Lemma create_trade_log_fails (w : world) (exchange_id exchange_user_id trade_params : value) e :
  next_fault (pg w) = Some e ->
  create_trade_log prepareValue exchange_id exchange_user_id trade_params w
  = (Throw e, after_query w).
Proof.
  intros Hq. unfold create_trade_log, try_catch.
  rewrite (pool_query_fails _ _ e) by exact Hq. reflexivity.
Qed.

(** The service on a request for an active exchange whose parameters it
    does not accept. *)
Lemma create_signed_token_rejects
    (w : world) cfg (exchange_id exchange_user_id trade_params : value) :
  active_exchange (pg w) (sql_text prepareValue exchange_id) cfg ->
  next_fault (pg w) = None ->
  truthy trade_params = true -> typeof trade_params = "object" ->
  trade_params_accepted trade_params = false ->
  exists msg,
    create_signed_token prepareValue exchange_id exchange_user_id trade_params w
    = (Throw (INVALID_TRADE_PARAMS msg), after_query w).
Proof.
  intros Hcfg Hq T O Hrej.
  unfold create_signed_token, bind.
  rewrite (get_exchange_config_some _ _ _ Hcfg Hq).
  unfold trade_params_accepted in Hrej.
  rewrite positive_number_checks, <- long_or_short_includes in Hrej.
  unfold or_, not_, bind.
  destruct trade_params as [| | | | | items | fields]; try discriminate;
    cbn in *; [eauto|].
  destruct (truthy (own_property fields "coin")); cbn in *; [|eauto].
  destruct (truthy (own_property fields "amount")); cbn in *;
    [|rewrite ?andb_false_r in Hrej; eauto].
  destruct (truthy (own_property fields "side")); cbn in *; [|eauto].
  destruct (includes_str ["long"; "short"] (own_property fields "side"));
    cbn in *; [|eauto].
  destruct (String.eqb (typeof (own_property fields "amount")) "number");
    cbn in *; [|eauto].
  destruct (le_zero_value (own_property fields "amount")); cbn in *;
    [eauto|discriminate].
Qed.

(** The service on a request for an active exchange whose parameters it
    accepts: it goes on to the insert, and returns the token signed with
    the exchange's key once the row is in. *)
Lemma create_signed_token_persists
    (w : world) cfg (exchange_id exchange_user_id trade_params : value) :
  active_exchange (pg w) (sql_text prepareValue exchange_id) cfg ->
  next_fault (pg w) = None ->
  truthy trade_params = true -> typeof trade_params = "object" ->
  trade_params_accepted trade_params = true ->
  create_signed_token prepareValue exchange_id exchange_user_id trade_params w
  = match next_fault (pg (after_query w)) with
    | Some e => (Throw e, after_query (after_query w))
    | None =>
      (Return
         {| token :=
              jwt.sign
                (token_claims (next_uuid (pg w)) exchange_id exchange_user_id
                   trade_params (current (time w)) (current (time (tick w))))
                (exchange_configurations.secret_signing_key cfg);
            trade_id := next_uuid (pg w);
            expires_in := 30 |},
       tick (tick (with_trade_row
                     (trade_row prepareValue (pg w) exchange_id exchange_user_id
                        trade_params)
                     (after_query (after_query w)))))
    end.
Proof.
  intros Hcfg Hq T O Hacc.
  unfold create_signed_token, bind.
  rewrite (get_exchange_config_some _ _ _ Hcfg Hq).
  unfold trade_params_accepted in Hacc.
  rewrite positive_number_checks, <- long_or_short_includes in Hacc.
  apply andb_prop in Hacc as [Hacc Hle]. apply andb_prop in Hacc as [Hcoin Hside].
  apply andb_prop in Hle as [Hamt Hle]. apply andb_prop in Hamt as [Hamt Hnum].
  apply negb_true_iff in Hle.
  assert (truthy (property trade_params "side") = true) as Hts.
  { unfold includes_str, existsb, is_str in Hside.
    destruct (property trade_params "side"); try discriminate.
    cbn. destruct s; [discriminate|reflexivity]. }
  unfold or_, not_, bind.
  destruct trade_params as [| | | | | items | fields]; try discriminate;
    cbn in *; try discriminate.
  rewrite Hcoin, Hamt, Hts. cbn. rewrite Hside. cbn. rewrite Hnum, Hle. cbn.
  destruct (next_fault (pg (after_query w))) as [e|] eqn:F.
  - rewrite (create_trade_log_fails _ _ _ _ e) by exact F. reflexivity.
  - rewrite create_trade_log_runs by exact F. reflexivity.
Qed.

(** C1. A request whose [exchange_id] names no active exchange: the service
    throws [INVALID_EXCHANGE] with the message "invalid or inactive exchange
    id" before anything is written, the controller's [catch] answers it with
    HTTP 400 and that message, and a request that carries the three fields
    the controller asks for ends that way; the world is left as it was
    but for the lookup query: [widget_trades] has no new row. *)
Theorem issue_unknown_or_inactive_exchange
    (w : world) (exchange_id exchange_user_id trade_params : value) :
  no_active_exchange (pg w) (sql_text prepareValue exchange_id) ->
  next_fault (pg w) = None ->
  create_signed_token prepareValue exchange_id exchange_user_id trade_params w
    = (Throw (INVALID_EXCHANGE "invalid or inactive exchange id"), after_query w)
  /\ trade_rows (pg (after_query w)) = trade_rows (pg w)
  /\ generate_trade_token_catch (INVALID_EXCHANGE "invalid or inactive exchange id")
       (after_query w)
     = (Return (Responded {| status := 400;
                             body := Failure "invalid or inactive exchange id" |}),
        after_query w)
  /\ (truthy exchange_id = true -> truthy exchange_user_id = true ->
      truthy trade_params = true -> typeof trade_params = "object" ->
      generate_trade_token prepareValue
        (Obj [("exchange_id", exchange_id); ("exchange_user_id", exchange_user_id);
              ("trade_params", trade_params)]) w
      = (Return (Responded {| status := 400;
                              body := Failure "invalid or inactive exchange id" |}),
         after_query w)).
Proof.
  intros Hno Hq.
  assert (Hs : create_signed_token prepareValue exchange_id exchange_user_id trade_params w
               = (Throw (INVALID_EXCHANGE "invalid or inactive exchange id"),
                  after_query w)).
  { unfold create_signed_token, bind.
    rewrite get_exchange_config_none by assumption. reflexivity. }
  repeat split; try assumption; try reflexivity.
  intros T1 T2 T3 T4.
  unfold generate_trade_token, try_catch, bind. cbn.
  rewrite T1, T2, T3, T4. cbn. rewrite Hs. reflexivity.
Qed.

(** The controller on a request that carries the three fields it asks for:
    it answers what the service returns or throws. *)
Lemma generate_trade_token_calls_service
    (w : world) (exchange_id exchange_user_id trade_params : value) :
  truthy exchange_id = true -> truthy exchange_user_id = true ->
  truthy trade_params = true -> typeof trade_params = "object" ->
  generate_trade_token prepareValue
    (Obj [("exchange_id", exchange_id); ("exchange_user_id", exchange_user_id);
          ("trade_params", trade_params)]) w
  = match create_signed_token prepareValue exchange_id exchange_user_id trade_params w with
    | (Return result, w') =>
      (Return (Responded (success_response result "token generated successfully")), w')
    | (Throw e, w') => generate_trade_token_catch e w'
    end.
Proof.
  intros T1 T2 T3 T4. unfold generate_trade_token, try_catch, bind. cbn.
  rewrite T1, T2, T3, T4. cbn.
  destruct (create_signed_token prepareValue exchange_id exchange_user_id trade_params w)
    as [[result|e] w']; reflexivity.
Qed.

(** X1. What the three checks of the service come to. For a request against an
    active exchange, the service throws [INVALID_TRADE_PARAMS] exactly when
    [coin] is falsy, [side] is not the string long or short, or [amount] is
    not a number above zero. A rejection leaves [widget_trades] as it was, and
    parameters that pass reach the insert: the call returns with the row
    written, or throws what the insert threw. *)
Lemma issue_rejects_exactly_unaccepted_params
    (w : world) cfg (exchange_id exchange_user_id trade_params : value) :
  active_exchange (pg w) (sql_text prepareValue exchange_id) cfg ->
  next_fault (pg w) = None ->
  truthy trade_params = true -> typeof trade_params = "object" ->
  (forall e, next_fault (pg (after_query w)) = Some e ->
             has_code e "INVALID_TRADE_PARAMS" = false) ->
  let result :=
    create_signed_token prepareValue exchange_id exchange_user_id trade_params w in
  is_invalid_trade_params (fst result) = negb (trade_params_accepted trade_params)
  /\ (trade_params_accepted trade_params = false ->
      snd result = after_query w
      /\ trade_rows (pg (snd result)) = trade_rows (pg w))
  /\ (trade_params_accepted trade_params = true ->
      match fst result with
      | Return _ =>
        trade_rows (pg (snd result))
        = (trade_rows (pg w)
           ++ [trade_row prepareValue (pg w) exchange_id exchange_user_id trade_params])%list
      | Throw e => next_fault (pg (after_query w)) = Some e
      end).
Proof.
  intros Hcfg Hq T O Hdb result.
  destruct (trade_params_accepted trade_params) eqn:Hacc; subst result.
  - rewrite (create_signed_token_persists w cfg exchange_id exchange_user_id trade_params Hcfg Hq T O Hacc).
    destruct (next_fault (pg (after_query w))) as [e|] eqn:F; cbn.
    + rewrite (Hdb e eq_refl). repeat split; try reflexivity; discriminate.
    + repeat split; try reflexivity; discriminate.
  - destruct (create_signed_token_rejects w cfg exchange_id exchange_user_id trade_params Hcfg Hq T O Hacc) as [msg ->].
    cbn. repeat split; try reflexivity; discriminate.
Qed.

(** C5, as amended. When the insert of the audit row fails, the write is
    not tried again: the service throws the error of the one attempt, the
    controller hands it to the error middleware with [next(error)], no token
    is returned and [widget_trades] has no new row. Two queries were sent,
    the lookup and the one insert. *)
Theorem persistence_failure_is_forwarded
    (w : world) cfg (exchange_id exchange_user_id trade_params : value) (e : error) :
  active_exchange (pg w) (sql_text prepareValue exchange_id) cfg ->
  next_fault (pg w) = None ->
  truthy exchange_id = true -> truthy exchange_user_id = true ->
  truthy trade_params = true -> typeof trade_params = "object" ->
  trade_params_accepted trade_params = true ->
  next_fault (pg (after_query w)) = Some e ->
  has_code e "INVALID_EXCHANGE" = false ->
  has_code e "INVALID_TRADE_PARAMS" = false ->
  create_signed_token prepareValue exchange_id exchange_user_id trade_params w
    = (Throw e, after_query (after_query w))
  /\ generate_trade_token prepareValue
       (Obj [("exchange_id", exchange_id); ("exchange_user_id", exchange_user_id);
             ("trade_params", trade_params)]) w
     = (Return (Next e), after_query (after_query w))
  /\ trade_rows (pg (after_query (after_query w))) = trade_rows (pg w).
Proof.
  intros Hcfg Hq T1 T2 T O Hacc F C1 C2.
  assert (Hs : create_signed_token prepareValue exchange_id exchange_user_id
                 trade_params w = (Throw e, after_query (after_query w))).
  { rewrite (create_signed_token_persists w cfg exchange_id exchange_user_id trade_params Hcfg Hq T O Hacc), F.
    reflexivity. }
  split; [exact Hs|split; [|reflexivity]].
  rewrite generate_trade_token_calls_service by assumption. rewrite Hs.
  unfold generate_trade_token_catch. rewrite C1, C2. reflexivity.
Qed.

(** The token the service returns: its claims are the fields of the request
    and the two clock readings, its signature is made with the signing key of
    the exchange that was looked up, and its lifetime is 30 seconds when both
    readings fall in the same second. *)
Lemma issued_token
    (w : world) cfg (exchange_id exchange_user_id trade_params : value) :
  active_exchange (pg w) (sql_text prepareValue exchange_id) cfg ->
  next_fault (pg w) = None ->
  truthy trade_params = true -> typeof trade_params = "object" ->
  trade_params_accepted trade_params = true ->
  next_fault (pg (after_query w)) = None ->
  exists t,
    fst (create_signed_token prepareValue exchange_id exchange_user_id trade_params w)
      = Return t
    /\ jwt.claims (token t)
       = token_claims (next_uuid (pg w)) exchange_id exchange_user_id trade_params
           (current (time w)) (current (time (tick w)))
    /\ jwt.verifies (token t) (exchange_configurations.secret_signing_key cfg)
    /\ (current (time w) / 1000 = current (time (tick w)) / 1000 ->
        jwt.exp (jwt.claims (token t)) - jwt.iat (jwt.claims (token t)) = 30).
Proof.
  intros Hcfg Hq T O Hacc F.
  rewrite (create_signed_token_persists w cfg exchange_id exchange_user_id trade_params Hcfg Hq T O Hacc), F.
  eexists. split; [reflexivity|]. cbn. repeat split.
  unfold token_claims. cbn. intros ->. lia.
Qed.

End TradeTokenProperties.

(** A token whose claims were changed after signing no longer verifies, and
    a signed token verifies under the key it was signed with only. *)
Lemma altered_claims_do_not_verify (p p' : jwt.payload) (secret : string) :
  p' <> p ->
  ~ jwt.verifies {| jwt.claims := p'; jwt.signature := jwt.signature (jwt.sign p secret) |}
      secret.
Proof. unfold jwt.verifies. cbn. intros Hne H. injection H as H. congruence. Qed.

Lemma verifies_signing_key_only (p : jwt.payload) (secret secret' : string) :
  jwt.verifies (jwt.sign p secret) secret' <-> secret' = secret.
Proof.
  unfold jwt.verifies. cbn. split.
  - intros H. injection H as H. congruence.
  - intros ->. reflexivity.
Qed.

(** ** The claims at sample requests *)

Lemma issue_unknown_or_inactive_exchange_witness :
  generate_trade_token no_text (issuance_request "acme" (of_Z 100)) inactive_acme
  = (Return (Responded {| status := 400;
                          body := Failure "invalid or inactive exchange id" |}),
     after_query inactive_acme)
  /\ trade_rows (pg (after_query inactive_acme)) = [].
Proof.
  assert (H1 : no_active_exchange (pg inactive_acme) (sql_text no_text (Str "acme"))).
  { intros r [<-|[]] _. reflexivity. }
  assert (H2 : next_fault (pg inactive_acme) = None) by reflexivity.
  destruct (issue_unknown_or_inactive_exchange no_text inactive_acme
              (Str "acme") (Str "u1") (trade_params_of (of_Z 100)) H1 H2)
    as (_ & Hrows & _ & Hreq).
  split; [apply Hreq; reflexivity | exact Hrows].
Defined.

Lemma above_bound_positive (hi : Q) : Qle_bool (above_bound hi) 0 = false.
Proof.
  unfold above_bound. destruct (Qle_bool hi 0) eqn:L; [reflexivity|].
  destruct (Qle_bool (hi + 1) 0) eqn:L'; [|reflexivity].
  apply Qle_bool_iff in L'.
  assert (~ (hi <= 0)%Q) as N by (rewrite <- Qle_bool_iff; congruence).
  exfalso. apply N. lra.
Qed.

Lemma above_bound_exceeds (hi : Q) : Qle_bool (above_bound hi) hi = false.
Proof.
  unfold above_bound. destruct (Qle_bool hi 0) eqn:L.
  - apply Qle_bool_iff in L. destruct (Qle_bool 1 hi) eqn:L'; [|reflexivity].
    apply Qle_bool_iff in L'. lra.
  - destruct (Qle_bool (hi + 1) hi) eqn:L'; [|reflexivity].
    apply Qle_bool_iff in L'. lra.
Qed.

(** C4. The service checks [typeof amount !== 'number' || amount <= 0] and
    nothing else of the amount: no test that it is finite, no bounds. An
    amount of [Infinity] is structurally invalid whatever bounds are
    configured, yet the service does not throw [INVALID_TRADE_PARAMS]: the
    audit row is inserted and the controller answers with the token. The same
    happens for a finite amount above the upper bound, whatever the bounds.
    The row and the claims hold the parameters as the code hands them to
    node-postgres and jsonwebtoken; both libraries write them with
    [JSON.stringify], where [Infinity] comes out as [null]. *)
Theorem amount_outside_bounds_is_issued :
  (forall lo hi, structurally_valid lo hi (trade_params_of (Num PosInfinity)) = false)
  /\ is_invalid_trade_params
       (fst (create_signed_token no_text (Str "acme") (Str "u1")
               (trade_params_of (Num PosInfinity)) (active_acme [] midnight)))
     = false
  /\ (exists data,
        fst (generate_trade_token no_text (issuance_request "acme" (Num PosInfinity))
               (active_acme [] midnight))
        = Return (Responded (success_response data "token generated successfully")))
  /\ length (trade_rows (pg (snd (generate_trade_token no_text
                                    (issuance_request "acme" (Num PosInfinity))
                                    (active_acme [] midnight))))) = 1%nat
  /\ (forall lo hi,
        structurally_valid lo hi (trade_params_of (Num (Finite (above_bound hi)))) = false
        /\ (exists data,
              fst (generate_trade_token no_text
                     (issuance_request "acme" (Num (Finite (above_bound hi))))
                     (active_acme [] midnight))
              = Return (Responded (success_response data "token generated successfully")))
        /\ length (trade_rows (pg (snd (generate_trade_token no_text
                                          (issuance_request "acme"
                                             (Num (Finite (above_bound hi))))
                                          (active_acme [] midnight))))) = 1%nat).
Proof.
  split; [intros lo hi; reflexivity|].
  split; [reflexivity|]. split; [eexists; reflexivity|]. split; [reflexivity|].
  intros lo hi. split.
  { unfold structurally_valid, trade_params_of, property. cbn.
    rewrite above_bound_exceeds. now rewrite !andb_false_r. }
  assert (Hacc : trade_params_accepted
                   (trade_params_of (Num (Finite (above_bound hi)))) = true).
  { unfold trade_params_accepted, trade_params_of, property. cbn.
    now rewrite above_bound_positive. }
  unfold issuance_request.
  rewrite (generate_trade_token_calls_service no_text) by reflexivity.
  rewrite (create_signed_token_persists no_text _ (acme true))
    by (reflexivity || exact Hacc).
  split; [eexists; reflexivity | reflexivity].
Qed.

Lemma issue_rejects_exactly_unaccepted_params_witness :
  is_invalid_trade_params
    (fst (create_signed_token no_text (Str "acme") (Str "u1")
            (trade_params_of (Num NaN)) (active_acme [] midnight)))
  = true
  /\ trade_rows (pg (snd (create_signed_token no_text (Str "acme") (Str "u1")
                            (trade_params_of (Num NaN)) (active_acme [] midnight))))
     = [].
Proof.
  assert (H1 : active_exchange (pg (active_acme [] midnight))
                 (sql_text no_text (Str "acme")) (acme true)) by reflexivity.
  assert (H2 : next_fault (pg (active_acme [] midnight)) = None) by reflexivity.
  assert (H3 : forall e, next_fault (pg (after_query (active_acme [] midnight))) = Some e ->
                         has_code e "INVALID_TRADE_PARAMS" = false)
    by (intros e H; discriminate H).
  destruct (issue_rejects_exactly_unaccepted_params no_text (active_acme [] midnight)
              (acme true) (Str "acme") (Str "u1") (trade_params_of (Num NaN))
              H1 H2 eq_refl eq_refl H3) as (Hinv & Hrej & _).
  split; [exact Hinv | exact (proj2 (Hrej eq_refl))].
Defined.

(** C5 fails as stated: the first write fails and a second one would go
    through, yet the request ends as an error after the single attempt; the
    entry of [faults] a retry would have met is still there. *)
Lemma failed_write_is_not_retried :
  fst (create_trade_log_with_retry no_text (Str "acme") (Str "u1")
         (trade_params_of (of_Z 100))
         (after_query (active_acme [None; Some connection_refused; None] midnight)))
  = Return 0%N
  /\ generate_trade_token no_text (issuance_request "acme" (of_Z 100))
       (active_acme [None; Some connection_refused; None] midnight)
     = (Return (Next connection_refused), active_acme [None] midnight).
Proof. split; reflexivity. Qed.

Lemma persistence_failure_is_forwarded_witness :
  generate_trade_token no_text (issuance_request "acme" (of_Z 100))
    (active_acme [None; Some connection_refused] midnight)
  = (Return (Next connection_refused),
     after_query (after_query (active_acme [None; Some connection_refused] midnight))).
Proof.
  refine (proj1 (proj2 (persistence_failure_is_forwarded no_text
            (active_acme [None; Some connection_refused] midnight) (acme true)
            (Str "acme") (Str "u1") (trade_params_of (of_Z 100)) connection_refused
            _ _ _ _ _ _ _ _ _ _))); reflexivity.
Defined.

(** C3 at two clock readings one millisecond apart that straddle a second:
    [iat] comes from the first reading and [exp] from the second, so the token
    lives 31 seconds while the response announces 30. *)
Theorem token_lifetime_across_second_boundary :
  exists t,
    fst (create_signed_token no_text (Str "acme") (Str "u1")
           (trade_params_of (of_Z 100)) (active_acme [] second_boundary))
    = Return t
    /\ jwt.iat (jwt.claims (token t)) = 1
    /\ jwt.exp (jwt.claims (token t)) = 32
    /\ jwt.exp (jwt.claims (token t)) - jwt.iat (jwt.claims (token t)) = 31
    /\ expires_in t = 30.
Proof. eexists. repeat split. Qed.

(** * Properties of the gateway *)

Lemma alter_present {A} (f : A -> A) (m : gmap string A) (i : string) (x : A) :
  m !! i = Some x -> alter f i m = <[i := f x]> m.
Proof.
  intros H. apply map_eq. intros j. destruct (decide (i = j)) as [<-|Hne].
  - now rewrite lookup_alter_eq, lookup_insert_eq, H.
  - now rewrite lookup_alter_ne, lookup_insert_ne.
Qed.

Lemma set_sockets_twice (f g : gmap string socket -> gmap string socket) (w : world) :
  set_sockets f (set_sockets g w) = set_sockets (fun m => f (g m)) w.
Proof. reflexivity. Qed.

(** A frame sent on an open socket is appended to what it has sent. *)
Lemma socket_send_open (socket_id : string) (frame : server_frame) (w : world) sock :
  sockets w !! socket_id = Some sock -> readyState sock = OPEN ->
  socket_send socket_id frame w
  = (Return tt,
     set_sockets <[socket_id := {| readyState := OPEN; sent := sent sock ++ [frame];
                                   close_call := close_call sock |}]> w).
Proof.
  intros Hs Ho. unfold socket_send, modify, set_sockets. do 2 f_equal.
  rewrite (alter_present _ _ _ _ Hs), Ho. reflexivity.
Qed.

Lemma send_error_open (socket_id error : string) (code : Z) (w : world) sock :
  sockets w !! socket_id = Some sock -> readyState sock = OPEN ->
  send_error socket_id error code w
  = (Return tt,
     set_sockets <[socket_id := {| readyState := OPEN;
                                   sent := sent sock ++ [error_frame error code];
                                   close_call := close_call sock |}]> w).
Proof.
  intros Hs Ho. unfold send_error, try_catch.
  now rewrite (socket_send_open _ _ _ _ Hs Ho).
Qed.

(** Closing an open socket starts the handshake with the given code. *)
Lemma socket_close_open (socket_id reason : string) (code : Z) (w : world) sock :
  sockets w !! socket_id = Some sock -> readyState sock = OPEN ->
  socket_close socket_id code reason w
  = (Return tt,
     set_sockets <[socket_id := {| readyState := CLOSING; sent := sent sock;
                                   close_call := Some (code, reason) |}]> w).
Proof.
  intros Hs Ho. unfold socket_close, modify, set_sockets. do 2 f_equal.
  rewrite (alter_present _ _ _ _ Hs), Ho. reflexivity.
Qed.

(** An error frame followed by [close]: what every refusal of [handle_auth]
    does to an open socket. *)
Lemma refuse_open (socket_id error reason : string) (code : Z) (w : world) sock :
  sockets w !! socket_id = Some sock -> readyState sock = OPEN ->
  (let* _ := send_error socket_id error code in
   socket_close socket_id code reason) w
  = (Return tt,
     set_sockets <[socket_id := {| readyState := CLOSING;
                                   sent := sent sock ++ [error_frame error code];
                                   close_call := Some (code, reason) |}]> w).
Proof.
  intros Hs Ho. unfold bind. rewrite (send_error_open _ _ _ _ _ Hs Ho).
  erewrite socket_close_open; [|apply lookup_insert_eq|reflexivity].
  rewrite set_sockets_twice. unfold set_sockets. cbn. do 2 f_equal.
  apply insert_insert_eq.
Qed.

(** Stepping through a computation. *)
Lemma bind_return {A B} (m : M A) (k : A -> M B) (w w' : world) (a : A) :
  m w = (Return a, w') -> bind m k w = k a w'.
Proof. unfold bind. now intros ->. Qed.

Lemma bind_throw {A B} (m : M A) (k : A -> M B) (w w' : world) (e : error) :
  m w = (Throw e, w') -> bind m k w = (Throw e, w').
Proof. unfold bind. now intros ->. Qed.

Lemma try_catch_return {A} (m : M A) (h : error -> M A) (w w' : world) (a : A) :
  m w = (Return a, w') -> try_catch m h w = (Return a, w').
Proof. unfold try_catch. now intros ->. Qed.

Lemma try_catch_throw {A} (m : M A) (h : error -> M A) (w w' : world) (e : error) :
  m w = (Throw e, w') -> try_catch m h w = h e w'.
Proof. unfold try_catch. now intros ->. Qed.

Lemma get_readable (message : value) (key : string) (w : world) :
  readable message = true ->
  get message key w = (Return (property message key), w).
Proof. destruct message; cbn; intros; try discriminate; reflexivity. Qed.

Lemma get_unreadable (message : value) (key : string) (w : world) :
  readable message = false ->
  exists e, get message key w = (Throw e, w).
Proof. destruct message; cbn; intros; try discriminate; eauto. Qed.

Lemma var_present {A} (socket_id : string) (f : session -> A) (d : A) (w : world) s :
  sessions w !! socket_id = Some s ->
  var socket_id f d w = (Return (f s), w).
Proof. intros H. unfold var, gets. now rewrite H. Qed.

Lemma gt_value_of_Z (count limit : Z) :
  gt_value count (of_Z limit) = (limit <? count)%Z.
Proof.
  unfold gt_value, of_Z.
  destruct (Z.ltb_spec limit count) as [H|H].
  - apply andb_true_intro. split.
    + apply Qle_bool_iff. rewrite <- Zle_Qle. lia.
    + apply negb_true_iff. destruct (Qeq_bool _ _) eqn:E; [|reflexivity].
      apply Qeq_bool_iff in E. apply (proj1 (inject_Z_injective _ _)) in E. lia.
  - destruct (Z.eq_dec limit count) as [->|Hne].
    + assert (Qeq_bool (inject_Z count) (inject_Z count) = true) as ->
        by (apply Qeq_bool_iff; reflexivity).
      now rewrite andb_false_r.
    + assert (Qle_bool (inject_Z limit) (inject_Z count) = false) as ->; [|reflexivity].
      destruct (Qle_bool _ _) eqn:E; [|reflexivity].
      apply Qle_bool_iff in E. rewrite <- Zle_Qle in E. lia.
Qed.

(** What [check_message_rate] answers and leaves behind. *)
Lemma check_message_rate_counts (socket_id : string) (exchange_id : option string)
    (w : world) :
  check_message_rate socket_id exchange_id None w
  = (Return (if (60 <? messages_this_minute w socket_id (current (time w)) + 1)%Z
             then Denied 4006 "message rate limit exceeded"
             else Allowed),
     counted socket_id w).
Proof.
  unfold check_message_rate.
  change (default (own_property DEFAULT_LIMITS "messages_per_minute") None)
    with (of_Z 60).
  unfold counted, messages_this_minute, tick, bind, Date_now, incr, expire, modify, ret.
  cbn. rewrite gt_value_of_Z.
  destruct (default 0 (strings (redis w) !! minute_key socket_id (current (time w)))
            + 1 =? 1)%Z eqn:E; cbn.
  - destruct (60 <? _)%Z; unfold set_redis, set_time; cbn;
      (rewrite decide_True by (left; rewrite lookup_insert_eq; eauto));
      reflexivity.
  - destruct (60 <? _)%Z; reflexivity.
Qed.

Section GatewayProperties.

Variable prepareValue : value -> string.
Variable JSON_value : string -> option value.

(** The text [ping] is no JSON text, whatever the parser does elsewhere. *)
Lemma JSON_parse_bare_ping :
  JSON_parse JSON_value "ping" = Throw (SyntaxError "Unexpected token in JSON").
Proof. reflexivity. Qed.

(** A frame that does not parse is answered with the error frame 4007, in
    any state of the session, and nothing else happens. *)
Lemma on_message_bare_ping (socket_id : string) (w : world) :
  on_message prepareValue JSON_value socket_id "ping" w
  = send_error socket_id "invalid message format" 4007 w.
Proof. reflexivity. Qed.

(** [on_message] hands a parsed message to the handler the state selects. *)
Lemma on_message_parsed (socket_id data : string) (message : value) (w : world) s :
  sessions w !! socket_id = Some s ->
  JSON_parse JSON_value data = Return message ->
  on_message prepareValue JSON_value socket_id data w
  = try_catch
      (if is_authenticated s
       then handle_message socket_id message
       else handle_auth prepareValue socket_id message)
      (fun error => send_error socket_id "invalid message format" 4007) w.
Proof.
  intros Hs Hparse. unfold on_message, try_catch.
  erewrite bind_return; [|rewrite Hparse; reflexivity].
  erewrite bind_return; [|apply (var_present _ _ _ _ _ Hs)].
  destruct (is_authenticated s); reflexivity.
Qed.

(** The first check of [handle_auth]. *)
Lemma handle_auth_not_auth (socket_id : string) (message : value) (w : world) sock :
  sockets w !! socket_id = Some sock -> readyState sock = OPEN ->
  readable message = true ->
  is_str (property message "type") "auth" = false ->
  handle_auth prepareValue socket_id message w
  = (Return tt,
     set_sockets <[socket_id := {| readyState := CLOSING;
                                   sent := sent sock
                                           ++ [error_frame "invalid auth message" 4002];
                                   close_call := Some (4002, "Invalid auth") |}]> w).
Proof.
  intros Hsock Hopen Hread Htype. unfold handle_auth.
  erewrite bind_return.
  2:{ unfold or_. erewrite bind_return.
      2:{ erewrite bind_return; [|apply get_readable, Hread].
          rewrite Htype. reflexivity. }
      reflexivity. }
  cbv iota. apply (refuse_open _ _ _ _ _ _ Hsock Hopen).
Qed.

(** C6, as amended. A session that is not authenticated receives a message
    whose [type] is not the string auth: the server sends the error frame
    "invalid auth message" with code 4002 and closes the socket with close
    code 4002 (AuthFailed), not 4007. *)
Theorem first_message_not_auth_closes_4002
    (w : world) (socket_id data : string) (message : value) s sock :
  sessions w !! socket_id = Some s -> is_authenticated s = false ->
  sockets w !! socket_id = Some sock -> readyState sock = OPEN ->
  JSON_parse JSON_value data = Return message ->
  readable message = true ->
  is_str (property message "type") "auth" = false ->
  on_message prepareValue JSON_value socket_id data w
  = (Return tt,
     set_sockets <[socket_id := {| readyState := CLOSING;
                                   sent := sent sock
                                           ++ [error_frame "invalid auth message" 4002];
                                   close_call := Some (4002, "Invalid auth") |}]> w)
  /\ close_code (snd (on_message prepareValue JSON_value socket_id data w)) socket_id
     = Some 4002.
Proof.
  intros Hs Hauth Hsock Hopen Hparse Hread Htype.
  assert (E : on_message prepareValue JSON_value socket_id data w
              = (Return tt,
                 set_sockets <[socket_id := {| readyState := CLOSING;
                    sent := sent sock ++ [error_frame "invalid auth message" 4002];
                    close_call := Some (4002, "Invalid auth") |}]> w)).
  { rewrite (on_message_parsed _ _ _ _ _ Hs Hparse), Hauth.
    apply try_catch_return.
    apply (handle_auth_not_auth _ _ _ _ Hsock Hopen Hread Htype). }
  split; [exact E|]. rewrite E. unfold close_code, wire. cbn.
  rewrite lookup_insert_eq. reflexivity.
Qed.

Lemma get_exchange_by_api_key_runs (w : world) (api_key : value) :
  next_fault (pg w) = None ->
  get_exchange_by_api_key prepareValue api_key w
  = (Return (exchange_with_key (pg w) (sql_text prepareValue api_key)), after_query w).
Proof.
  intros Hq. unfold get_exchange_by_api_key.
  apply try_catch_return. rewrite pool_query_runs by exact Hq. reflexivity.
Qed.

(** [handle_auth] on an authentication request, up to the lookup. *)
Lemma handle_auth_looks_up (socket_id : string) (message key : value) (w : world) :
  presents_key message key ->
  next_fault (pg w) = None ->
  handle_auth prepareValue socket_id message w
  = match exchange_with_key (pg w) (sql_text prepareValue key) with
    | None =>
      (let* _ := send_error socket_id "invalid api key" 4002 in
       socket_close socket_id 4002 "Invalid API key") (after_query w)
    | Some cfg =>
      if exchange_configurations.is_active cfg
      then handle_auth prepareValue socket_id message w
      else (let* _ := send_error socket_id "exchange inactive" 4003 in
            socket_close socket_id 4003 "Exchange inactive") (after_query w)
    end.
Proof.
  intros (Hread & Htype & Hkey & Htruthy) Hq.
  destruct (exchange_with_key (pg w) (sql_text prepareValue key)) as [cfg|] eqn:E.
  2: unfold handle_auth.
  1: destruct (exchange_configurations.is_active cfg) eqn:A; [reflexivity|];
     unfold handle_auth.
  all: erewrite bind_return;
    [|unfold or_; erewrite bind_return;
      [|erewrite bind_return; [|apply get_readable, Hread];
        rewrite Htype; reflexivity];
      cbv beta iota delta [negb]; unfold not_;
      erewrite bind_return; [|apply get_readable, Hread];
      rewrite Hkey, Htruthy; reflexivity].
  all: cbv beta iota delta [negb]; erewrite bind_return; [|apply get_readable, Hread].
  all: erewrite bind_return; [|apply get_exchange_by_api_key_runs, Hq].
  all: rewrite Hkey, E; try rewrite A; reflexivity.
Qed.

(** C8, as amended. An unknown connection key and the key of an inactive
    tenant get different answers on the wire: the first the error frame
    "invalid api key" with code 4002 and close code 4002, the second the error
    frame "exchange inactive" with code 4003 and close code 4003. *)
Theorem unknown_and_inactive_keys_are_told_apart
    (w : world) (socket_id unknown_data inactive_data : string)
    (unknown_message inactive_message unknown_key inactive_key : value) s sock cfg :
  sessions w !! socket_id = Some s -> is_authenticated s = false ->
  sockets w !! socket_id = Some sock -> readyState sock = OPEN ->
  next_fault (pg w) = None ->
  JSON_parse JSON_value unknown_data = Return unknown_message ->
  presents_key unknown_message unknown_key ->
  exchange_with_key (pg w) (sql_text prepareValue unknown_key) = None ->
  JSON_parse JSON_value inactive_data = Return inactive_message ->
  presents_key inactive_message inactive_key ->
  exchange_with_key (pg w) (sql_text prepareValue inactive_key) = Some cfg ->
  exchange_configurations.is_active cfg = false ->
  let unknown := snd (on_message prepareValue JSON_value socket_id unknown_data w) in
  let inactive := snd (on_message prepareValue JSON_value socket_id inactive_data w) in
  wire unknown socket_id
    = ((sent sock ++ [error_frame "invalid api key" 4002])%list, Some (4002, "Invalid API key"))
  /\ wire inactive socket_id
    = ((sent sock ++ [error_frame "exchange inactive" 4003])%list, Some (4003, "Exchange inactive"))
  /\ wire unknown socket_id <> wire inactive socket_id.
Proof.
  intros Hs Hauth Hsock Hopen Hq Hpu Hku Eu Hpi Hki Ei Hoff unknown inactive.
  assert (Hsock' : sockets (after_query w) !! socket_id = Some sock) by exact Hsock.
  assert (Wu : wire unknown socket_id
               = ((sent sock ++ [error_frame "invalid api key" 4002])%list,
                  Some (4002, "Invalid API key"))).
  { subst unknown. rewrite (on_message_parsed _ _ _ _ _ Hs Hpu), Hauth.
    erewrite try_catch_return.
    2:{ rewrite (handle_auth_looks_up _ _ _ _ Hku Hq), Eu.
        apply (refuse_open _ _ _ _ _ _ Hsock' Hopen). }
    unfold wire. cbn. rewrite lookup_insert_eq. reflexivity. }
  assert (Wi : wire inactive socket_id
               = ((sent sock ++ [error_frame "exchange inactive" 4003])%list,
                  Some (4003, "Exchange inactive"))).
  { subst inactive. rewrite (on_message_parsed _ _ _ _ _ Hs Hpi), Hauth.
    erewrite try_catch_return.
    2:{ rewrite (handle_auth_looks_up _ _ _ _ Hki Hq), Ei, Hoff.
        apply (refuse_open _ _ _ _ _ _ Hsock' Hopen). }
    unfold wire. cbn. rewrite lookup_insert_eq. reflexivity. }
  split; [exact Wu|]. split; [exact Wi|].
  rewrite Wu, Wi. intros H. injection H as _ H. discriminate H.
Qed.

(** [handle_message] while the minute's budget lasts, and beyond it. *)
Lemma handle_message_within_budget (socket_id : string) (message : value) (w : world) s :
  sessions w !! socket_id = Some s ->
  readable message = true ->
  (messages_this_minute w socket_id (current (time w)) + 1 <= 60)%Z ->
  handle_message socket_id message w
  = (if is_str (property message "type") "ping"
     then socket_send socket_id (Text (Obj [("type", Str "pong")]))
     else ret tt) (counted socket_id w).
Proof.
  intros Hs Hread Hn. unfold handle_message.
  erewrite bind_return; [|apply (var_present _ _ _ _ _ Hs)].
  erewrite bind_return; [|apply check_message_rate_counts].
  destruct (Z.ltb_spec 60 (messages_this_minute w socket_id (current (time w)) + 1));
    [lia|].
  erewrite bind_return; [|apply get_readable, Hread]. reflexivity.
Qed.

Lemma handle_message_over_budget (socket_id : string) (message : value) (w : world) s :
  sessions w !! socket_id = Some s ->
  (60 < messages_this_minute w socket_id (current (time w)) + 1)%Z ->
  handle_message socket_id message w
  = send_error socket_id "message rate limit exceeded" 4006 (counted socket_id w).
Proof.
  intros Hs Hn. unfold handle_message.
  erewrite bind_return; [|apply (var_present _ _ _ _ _ Hs)].
  erewrite bind_return; [|apply check_message_rate_counts].
  destruct (Z.ltb_spec 60 (messages_this_minute w socket_id (current (time w)) + 1));
    [reflexivity|lia].
Qed.

(** A message beyond the budget of the minute is answered with the error
    frame 4006 on a socket that stays open: [close] is not called. *)
Lemma over_budget_message_leaves_socket_open
    (w : world) (socket_id data : string) (message : value) s sock :
  sessions w !! socket_id = Some s -> is_authenticated s = true ->
  sockets w !! socket_id = Some sock -> readyState sock = OPEN ->
  JSON_parse JSON_value data = Return message ->
  (60 < messages_this_minute w socket_id (current (time w)) + 1)%Z ->
  on_message prepareValue JSON_value socket_id data w
  = (Return tt,
     set_sockets <[socket_id := {| readyState := OPEN;
                                   sent := sent sock
                                     ++ [error_frame "message rate limit exceeded" 4006];
                                   close_call := close_call sock |}]>
       (counted socket_id w)).
Proof.
  intros Hs Hauth Hsock Hopen Hparse Hn.
  rewrite (on_message_parsed _ _ _ _ _ Hs Hparse), Hauth.
  apply try_catch_return.
  rewrite (handle_message_over_budget _ _ _ _ Hs Hn).
  apply send_error_open; assumption.
Qed.

(** C10. An authenticated session receives a message whose [type] is not
    ping, within the budget of the minute: the handler returns normally and
    the world is the one [check_message_rate] left. Sockets (so: frames sent,
    state, close code), session variables, the connection map, the database
    and every other Redis key are as before; the counter of the minute is one
    higher. *)
Theorem unhandled_message_is_ignored
    (w : world) (socket_id data : string) (message : value) s :
  sessions w !! socket_id = Some s -> is_authenticated s = true ->
  JSON_parse JSON_value data = Return message ->
  readable message = true ->
  is_str (property message "type") "ping" = false ->
  (messages_this_minute w socket_id (current (time w)) + 1 <= 60)%Z ->
  let w' := snd (on_message prepareValue JSON_value socket_id data w) in
  on_message prepareValue JSON_value socket_id data w = (Return tt, counted socket_id w)
  /\ sockets w' = sockets w
  /\ wire w' socket_id = wire w socket_id
  /\ sessions w' = sessions w
  /\ connections w' = connections w
  /\ pg w' = pg w
  /\ sets (redis w') = sets (redis w)
  /\ messages_this_minute w' socket_id (current (time w))
     = (messages_this_minute w socket_id (current (time w)) + 1)%Z
  /\ (forall key, key <> minute_key socket_id (current (time w)) ->
                  strings (redis w') !! key = strings (redis w) !! key).
Proof.
  intros Hs Hauth Hparse Hread Htype Hn w'.
  assert (E : on_message prepareValue JSON_value socket_id data w
              = (Return tt, counted socket_id w)).
  { rewrite (on_message_parsed _ _ _ _ _ Hs Hparse), Hauth.
    apply try_catch_return.
    rewrite (handle_message_within_budget _ _ _ _ Hs Hread Hn), Htype.
    reflexivity. }
  subst w'. rewrite E. cbn [snd].
  repeat split; try reflexivity.
  - unfold messages_this_minute, counted. cbn. now rewrite lookup_insert_eq.
  - intros key Hkey. unfold counted. cbn. now rewrite lookup_insert_ne.
Qed.

End GatewayProperties.

(** ** Connection accounting *)

Lemma remove_connection_absent (socket_id : string) (w : world) :
  connections w !! socket_id = None ->
  remove_connection socket_id w = (Return tt, w).
Proof.
  intros H. unfold remove_connection.
  erewrite bind_return; [|unfold gets; rewrite H; reflexivity]. reflexivity.
Qed.

(** X12. Removing a connection a second time changes nothing. *)
Lemma remove_connection_twice (socket_id : string) (w : world) :
  remove_connection socket_id (snd (remove_connection socket_id w))
  = (Return tt, snd (remove_connection socket_id w)).
Proof.
  apply remove_connection_absent.
  unfold remove_connection, bind, gets.
  destruct (connections w !! socket_id) as [c|] eqn:E; cbn; [|exact E].
  apply lookup_delete_eq.
Qed.

(** Stepping through the Redis commands. *)
Lemma bind_modify {B} (f : world -> world) (k : unit -> M B) (w : world) :
  bind (modify f) k w = k tt (f w).
Proof. reflexivity. Qed.

Lemma bind_Date_now {B} (k : Z -> M B) (w : world) :
  bind Date_now k w = k (current (time w)) (tick w).
Proof. reflexivity. Qed.

Lemma bind_sadd {B} (key member : string) (k : unit -> M B) (w : world) :
  bind (sadd key member) k w = k tt (snd (sadd key member w)).
Proof. reflexivity. Qed.

Lemma bind_srem {B} (key member : string) (k : unit -> M B) (w : world) :
  bind (srem key member) k w = k tt (snd (srem key member w)).
Proof. reflexivity. Qed.

Lemma bind_expire {B} (key : string) (seconds : Z) (k : unit -> M B) (w : world) :
  bind (expire key seconds) k w = k tt (snd (expire key seconds w)).
Proof. reflexivity. Qed.

Lemma bind_incr {B} (key : string) (k : Z -> M B) (w : world) :
  bind (incr key) k w
  = k (default 0 (strings (redis w) !! key) + 1) (snd (incr key w)).
Proof. reflexivity. Qed.

Lemma bind_decr {B} (key : string) (k : Z -> M B) (w : world) :
  bind (decr key) k w
  = k (default 0 (strings (redis w) !! key) - 1) (snd (decr key w)).
Proof. reflexivity. Qed.

(** What the Redis commands leave alone. *)
Lemma sadd_strings (key member : string) (w : world) :
  strings (redis (snd (sadd key member w))) = strings (redis w)
  /\ connections (snd (sadd key member w)) = connections w.
Proof. split; reflexivity. Qed.

Lemma srem_strings (key member : string) (w : world) :
  strings (redis (snd (srem key member w))) = strings (redis w)
  /\ connections (snd (srem key member w)) = connections w.
Proof.
  unfold srem, modify, set_redis. cbn [snd redis connections].
  destruct (decide _); split; reflexivity.
Qed.

Lemma expire_strings (key : string) (seconds : Z) (w : world) :
  strings (redis (snd (expire key seconds w))) = strings (redis w)
  /\ connections (snd (expire key seconds w)) = connections w.
Proof.
  unfold expire, modify, set_redis. cbn [snd redis connections].
  destruct (decide _); split; reflexivity.
Qed.

Lemma incr_strings (key : string) (w : world) :
  strings (redis (snd (incr key w)))
  = <[key := default 0 (strings (redis w) !! key) + 1]> (strings (redis w))
  /\ connections (snd (incr key w)) = connections w.
Proof. split; reflexivity. Qed.

Lemma decr_strings (key : string) (w : world) :
  strings (redis (snd (decr key w)))
  = <[key := default 0 (strings (redis w) !! key) - 1]> (strings (redis w))
  /\ connections (snd (decr key w)) = connections w.
Proof. split; reflexivity. Qed.

(** [add_connection] registers the socket and raises both counters by one. *)
Lemma add_connection_effect (socket_id exchange_id ip : string) (w : world) :
  let w' := snd (add_connection socket_id exchange_id ip w) in
  let counted_once :=
    <[count_key exchange_id := default 0 (strings (redis w) !! count_key exchange_id) + 1]>
      (strings (redis w)) in
  fst (add_connection socket_id exchange_id ip w) = Return tt
  /\ connections w'
     = <[socket_id := {| conn_exchange_id := exchange_id; conn_ip := ip;
                         connected_at := current (time w) |}]> (connections w)
  /\ strings (redis w')
     = <[ip_key ip := default 0 (counted_once !! ip_key ip) + 1]> counted_once.
Proof.
  cbv zeta. unfold add_connection.
  rewrite bind_Date_now, bind_modify, bind_sadd, bind_expire, bind_incr,
    bind_expire, bind_incr.
  split; [reflexivity|].
  rewrite (proj1 (expire_strings _ _ _)), (proj2 (expire_strings _ _ _)).
  rewrite (proj1 (incr_strings _ _)), (proj2 (incr_strings _ _)).
  rewrite (proj1 (expire_strings _ _ _)), (proj2 (expire_strings _ _ _)).
  rewrite (proj1 (incr_strings _ _)), (proj2 (incr_strings _ _)).
  rewrite (proj1 (expire_strings _ _ _)), (proj2 (expire_strings _ _ _)).
  rewrite (proj1 (sadd_strings _ _ _)), (proj2 (sadd_strings _ _ _)).
  split; reflexivity.
Qed.

(** [remove_connection] of a registered socket drops it from the map and
    lowers the two counters of its entry by one. *)
Lemma remove_connection_effect (socket_id : string) (w : world) c :
  connections w !! socket_id = Some c ->
  let w' := snd (remove_connection socket_id w) in
  let uncounted :=
    <[count_key (conn_exchange_id c) :=
        default 0 (strings (redis w) !! count_key (conn_exchange_id c)) - 1]>
      (strings (redis w)) in
  fst (remove_connection socket_id w) = Return tt
  /\ connections w' = delete socket_id (connections w)
  /\ strings (redis w')
     = <[ip_key (conn_ip c) := default 0 (uncounted !! ip_key (conn_ip c)) - 1]> uncounted.
Proof.
  intros Hc. cbv zeta. unfold remove_connection.
  erewrite bind_return; [|unfold gets; rewrite Hc; reflexivity].
  cbv beta iota. rewrite bind_modify, bind_srem, bind_decr, bind_decr.
  split; [reflexivity|]. cbn [snd ret].
  rewrite (proj1 (decr_strings _ _)), (proj2 (decr_strings _ _)).
  rewrite (proj1 (decr_strings _ _)), (proj2 (decr_strings _ _)).
  rewrite (proj1 (srem_strings _ _ _)), (proj2 (srem_strings _ _ _)).
  split; reflexivity.
Qed.

(** Two counters raised by one each and then lowered by one each are back
    where they were, also when both are the same key. *)
Lemma counters_balanced (m : gmap string Z) (ck ik : string) :
  let m1 := <[ck := default 0 (m !! ck) + 1]> m in
  let m2 := <[ik := default 0 (m1 !! ik) + 1]> m1 in
  let m3 := <[ck := default 0 (m2 !! ck) - 1]> m2 in
  let m4 := <[ik := default 0 (m3 !! ik) - 1]> m3 in
  default 0 (m4 !! ck) = default 0 (m !! ck)
  /\ default 0 (m4 !! ik) = default 0 (m !! ik).
Proof.
  cbv zeta. destruct (decide (ck = ik)) as [->|Hne].
  - rewrite !lookup_insert_eq. cbn. split; lia.
  - assert (Hne' : ik <> ck) by congruence.
    repeat first [ rewrite lookup_insert_eq
                 | rewrite (lookup_insert_ne _ _ _ _ Hne)
                 | rewrite (lookup_insert_ne _ _ _ _ Hne')
                 | progress cbn ].
    split; lia.
Qed.

(** X11. A connection that is added and then removed leaves both counts where
    they were. *)
Lemma add_then_remove_is_balanced (socket_id exchange_id ip : string) (w : world) :
  let w' := snd (remove_connection socket_id
                   (snd (add_connection socket_id exchange_id ip w))) in
  exchange_count w' exchange_id = exchange_count w exchange_id
  /\ ip_count w' ip = ip_count w ip
  /\ connections w' !! socket_id = None.
Proof.
  cbv zeta.
  destruct (add_connection_effect socket_id exchange_id ip w) as (_ & Hc & Hs).
  cbv zeta in Hc, Hs.
  destruct (remove_connection_effect socket_id
              (snd (add_connection socket_id exchange_id ip w))
              {| conn_exchange_id := exchange_id; conn_ip := ip;
                 connected_at := current (time w) |}) as (_ & Hc' & Hs').
  { rewrite Hc. apply lookup_insert_eq. }
  cbv zeta in Hc', Hs'. cbn [conn_exchange_id conn_ip] in Hs'.
  unfold exchange_count, ip_count. rewrite Hc', Hs', Hs.
  generalize (count_key exchange_id) (ip_key ip) (strings (redis w)).
  intros ck ik m.
  split; [apply counters_balanced|split; [apply counters_balanced|]].
  apply lookup_delete_eq.
Qed.

Lemma bind_gets {A B} (f : world -> A) (k : A -> M B) (w : world) :
  bind (gets f) k w = k (f w) w.
Proof. reflexivity. Qed.

Lemma bind_assoc {A B C} (m : M A) (f : A -> M B) (g : B -> M C) (w : world) :
  bind (bind m f) g w = bind m (fun x => bind (f x) g) w.
Proof. unfold bind. destruct (m w) as [[a|e] w']; reflexivity. Qed.

(** The close handler removes the connection of an authenticated session
    and nothing else; it touches neither the counters nor the map for a
    session that never authenticated. *)
Lemma on_close_runs (socket_id : string) (code : Z) (w : world) :
  on_close socket_id code w
  = (if from_option is_authenticated false (sessions w !! socket_id)
     then remove_connection socket_id
     else ret tt)
      (set_sessions (fun m => alter (set_heartbeat_interval false) socket_id
                                (alter (set_auth_timeout false) socket_id m)) w).
Proof.
  unfold on_close, cleanup, assign, var.
  rewrite bind_assoc, !bind_modify, bind_gets. cbn [sessions set_sessions].
  rewrite !lookup_alter_eq.
  destruct (sessions w !! socket_id) as [s|]; reflexivity.
Qed.

(** X13. A session that closes before it authenticated is not removed from the
    accounting: the close handler leaves Redis and the connection map as they
    are. *)
Lemma on_close_unauthenticated (socket_id : string) (code : Z) (w : world) s :
  sessions w !! socket_id = Some s -> is_authenticated s = false ->
  redis (snd (on_close socket_id code w)) = redis w
  /\ connections (snd (on_close socket_id code w)) = connections w.
Proof.
  intros Hs Hauth. rewrite on_close_runs, Hs. cbn [from_option]. rewrite Hauth.
  split; reflexivity.
Qed.

(** One round of the loop of [graceful_shutdown] acts on sockets only. *)
Lemma shutdown_one_socket (socket_id : string) (w : world) :
  exists w',
    try_catch
      (let* _ := socket_send socket_id close_message in
       socket_close socket_id 4009 "Server shutdown")
      (fun _ => ret tt) w = (Return tt, w')
    /\ redis w' = redis w /\ sessions w' = sessions w
    /\ connections w' = connections w /\ pg w' = pg w.
Proof. eexists. split; [reflexivity|]. repeat split. Qed.

Lemma shutdown_loop_frame (entries : list (string * connection)) (w : world) :
  let r := foldr (fun entry rest =>
             let* _ := try_catch
                         (let* _ := socket_send (fst entry) close_message in
                          socket_close (fst entry) 4009 "Server shutdown")
                         (fun _ => ret tt) in
             rest) (ret tt) entries w in
  fst r = Return tt /\ redis (snd r) = redis w /\ sessions (snd r) = sessions w.
Proof.
  cbv zeta. revert w. induction entries as [|entry entries IH]; intros w.
  - repeat split.
  - cbn [foldr].
    destruct (shutdown_one_socket (fst entry) w) as (w' & E & Hr & Hs & _).
    rewrite (bind_return _ _ _ _ _ E).
    destruct (IH w') as (H1 & H2 & H3).
    rewrite H1, H2, H3, Hr, Hs. repeat split.
Qed.

(** [graceful_shutdown] empties the connection map and leaves Redis and the
    session variables as they are. *)
Lemma graceful_shutdown_effect (w : world) :
  fst (graceful_shutdown w) = Return tt
  /\ connections (snd (graceful_shutdown w)) = ∅
  /\ redis (snd (graceful_shutdown w)) = redis w
  /\ sessions (snd (graceful_shutdown w)) = sessions w.
Proof.
  unfold graceful_shutdown. rewrite bind_gets.
  pose proof (shutdown_loop_frame (map_to_list (connections w)) w) as H.
  cbv zeta in H. destruct H as (H1 & H2 & H3).
  match goal with
  | |- context [bind (foldr ?f ?z ?l) _ w] =>
    destruct (foldr f z l w) as [o w1] eqn:E
  end.
  cbn [fst snd] in H1, H2, H3. subst o.
  rewrite (bind_return _ _ _ _ _ E). unfold modify. cbn [fst snd].
  repeat split; assumption.
Qed.

(** After a shutdown the map is empty, so the close handler that follows
    finds nothing to remove: the counters are never decremented. *)
Lemma shutdown_then_close_keeps_counts (socket_id : string) (code : Z) (w : world) :
  let w' := snd (on_close socket_id code (snd (graceful_shutdown w))) in
  redis w' = redis w /\ connections w' = ∅.
Proof.
  cbv zeta. destruct (graceful_shutdown_effect w) as (_ & Hc & Hr & _).
  rewrite on_close_runs.
  destruct (from_option is_authenticated false _).
  - rewrite remove_connection_absent by (cbn [connections set_sessions];
                                          rewrite Hc; apply lookup_empty).
    split; assumption.
  - split; assumption.
Qed.

(** ** The gateway at sample sessions *)

(** C2 at a session that authenticated and is then shut down by the server:
    [graceful_shutdown] clears the connection map without touching Redis, so
    the close handler finds no entry and decrements nothing. The session is
    closed and gone from the map, and both of its counts stay at 1; had the
    client closed instead, they would be back at 0. *)
Theorem shutdown_leaves_session_counted :
  state_of (run no_text sample_json [Shutdown; Close "s1" 4009] authenticated_widget) "s1"
    = Some CLOSED
  /\ connections (run no_text sample_json [Shutdown; Close "s1" 4009] authenticated_widget)
     !! "s1" = None
  /\ exchange_count authenticated_widget "acme" = 1
  /\ exchange_count
       (run no_text sample_json [Shutdown; Close "s1" 4009] authenticated_widget) "acme" = 1
  /\ ip_count
       (run no_text sample_json [Shutdown; Close "s1" 4009] authenticated_widget) "10.0.0.1"
     = 1
  /\ exchange_count (run no_text sample_json [Close "s1" 1000] authenticated_widget) "acme"
     = 0
  /\ ip_count (run no_text sample_json [Close "s1" 1000] authenticated_widget) "10.0.0.1"
     = 0.
Proof. vm_compute. repeat split. Qed.

(** C6 fails as stated: a [ping] message before authentication closes the
    socket with 4002, not with 4007. *)
Lemma ping_before_auth_is_not_closed_with_4007 :
  close_code (run no_text sample_json [Message "s1" (typed_text "ping")]
                (connected_widget (active_acme [] midnight))) "s1"
  = Some 4002
  /\ close_code (run no_text sample_json [Message "s1" (typed_text "ping")]
                   (connected_widget (active_acme [] midnight))) "s1"
     <> Some 4007.
Proof. vm_compute. split; [reflexivity | discriminate]. Qed.

Lemma first_message_not_auth_closes_4002_witness :
  close_code
    (snd (on_message no_text sample_json "s1" (typed_text "ping")
            (connected_widget (active_acme [] midnight)))) "s1"
  = Some 4002.
Proof.
  refine (proj2 (first_message_not_auth_closes_4002 no_text sample_json
            (connected_widget (active_acme [] midnight)) "s1" (typed_text "ping")
            (typed_message "ping") (fresh_session "10.0.0.1" None)
            {| readyState := OPEN; sent := []; close_call := None |}
            _ _ _ _ _ _ _)); reflexivity.
Defined.

(** C7 at the 61st message of a minute: the server sends the error frame
    4006 and goes on; the socket is open, no close code was given, the
    session is still authenticated. *)
Theorem message_over_rate_limit_keeps_connection :
  state_of (run no_text sample_json (repeat (Message "s1" (typed_text "ping")) 61)
              authenticated_widget) "s1"
    = Some OPEN
  /\ close_code (run no_text sample_json (repeat (Message "s1" (typed_text "ping")) 61)
                   authenticated_widget) "s1"
     = None
  /\ last (fst (wire (run no_text sample_json
                        (repeat (Message "s1" (typed_text "ping")) 61)
                        authenticated_widget) "s1"))
     = Some (error_frame "message rate limit exceeded" 4006)
  /\ is_authenticated
       <$> sessions (run no_text sample_json
                       (repeat (Message "s1" (typed_text "ping")) 61)
                       authenticated_widget) !! "s1"
     = Some true
  /\ messages_this_minute
       (run no_text sample_json (repeat (Message "s1" (typed_text "ping")) 61)
          authenticated_widget) "s1" 0
     = 61.
Proof. vm_compute. repeat split. Qed.

(** C8 fails as stated: with the inactive exchange [acme] in the registry,
    its key and an unknown key get different frames and close codes. *)
Lemma unknown_and_inactive_keys_differ_on_the_wire :
  wire (run no_text sample_json [Message "s1" (auth_text "wk_none")]
          (connected_widget inactive_acme)) "s1"
  = ([error_frame "invalid api key" 4002], Some (4002, "Invalid API key"))
  /\ wire (run no_text sample_json [Message "s1" (auth_text "wk_1")]
             (connected_widget inactive_acme)) "s1"
     = ([error_frame "exchange inactive" 4003], Some (4003, "Exchange inactive"))
  /\ wire (run no_text sample_json [Message "s1" (auth_text "wk_none")]
             (connected_widget inactive_acme)) "s1"
     <> wire (run no_text sample_json [Message "s1" (auth_text "wk_1")]
                (connected_widget inactive_acme)) "s1".
Proof. vm_compute. repeat split. discriminate. Qed.

Lemma unknown_and_inactive_keys_are_told_apart_witness :
  wire (snd (on_message no_text sample_json "s1" (auth_text "wk_none")
               (connected_widget inactive_acme))) "s1"
  <> wire (snd (on_message no_text sample_json "s1" (auth_text "wk_1")
                  (connected_widget inactive_acme))) "s1".
Proof.
  refine (proj2 (proj2 (unknown_and_inactive_keys_are_told_apart no_text sample_json
            (connected_widget inactive_acme) "s1"
            (auth_text "wk_none") (auth_text "wk_1")
            (auth_message "wk_none") (auth_message "wk_1")
            (Str "wk_none") (Str "wk_1")
            (fresh_session "10.0.0.1" None)
            {| readyState := OPEN; sent := []; close_call := None |}
            (acme false)
            _ _ _ _ _ _ _ _ _ _ _ _)));
    try reflexivity; repeat split.
Defined.

(** C9 at a bare [ping] text frame on an authenticated session: the frame
    does not parse as JSON, so the server answers with the error frame 4007
    "invalid message format" and sends no pong; the JSON message of type
    ping is answered with pong. *)
Theorem bare_ping_is_answered_as_malformed :
  wire (run no_text sample_json [Message "s1" "ping"] authenticated_widget) "s1"
  = ([auth_success_frame; error_frame "invalid message format" 4007], None)
  /\ wire (run no_text sample_json [Message "s1" (typed_text "ping")]
             authenticated_widget) "s1"
     = ([auth_success_frame; pong_frame], None).
Proof. vm_compute. split; reflexivity. Qed.

Lemma unhandled_message_is_ignored_witness :
  on_message no_text sample_json "s1" (typed_text "subscribe") authenticated_widget
  = (Return tt, counted "s1" authenticated_widget)
  /\ wire (snd (on_message no_text sample_json "s1" (typed_text "subscribe")
                  authenticated_widget)) "s1"
     = ([auth_success_frame], None).
Proof.
  destruct (unhandled_message_is_ignored no_text sample_json authenticated_widget
              "s1" (typed_text "subscribe") (typed_message "subscribe")
              {| ip := "10.0.0.1"; origin := None; exchange_id := Some "acme";
                 is_authenticated := true; auth_timeout := false;
                 heartbeat_interval := true |})
    as (E & _ & W & _); try reflexivity.
  - vm_compute. discriminate.
  - split; [exact E | rewrite W; reflexivity].
Defined.

(** * More of the gateway *)

Lemma ge_value_of_Z (count limit : Z) :
  ge_value count (of_Z limit) = (limit <=? count)%Z.
Proof.
  unfold ge_value, of_Z.
  destruct (Z.leb_spec limit count) as [H|H].
  - apply Qle_bool_iff. rewrite <- Zle_Qle. exact H.
  - destruct (Qle_bool _ _) eqn:E; [|reflexivity].
    apply Qle_bool_iff in E. rewrite <- Zle_Qle in E. lia.
Qed.

Lemma bind_of_fst {A B} (m : M A) (k : A -> M B) (w : world) (a : A) :
  fst (m w) = Return a -> bind m k w = k a (snd (m w)).
Proof. unfold bind. destruct (m w) as [o w']. cbn. now intros ->. Qed.

(** [check_connection_limits] with the limits [handle_auth] passes. *)
Lemma check_connection_limits_runs
    (exchange_id ip : string) (limit : option Z) (w : world) :
  check_connection_limits exchange_id ip
    [("max_connections_per_exchange", column limit)] w
  = (Return
       (if (default 0 limit <=? exchange_count w exchange_id)%Z
        then Denied 4004 "exchange connection limit reached"
        else if (10 <=? ip_count w ip)%Z
             then Denied 4005 "ip connection limit reached"
             else Allowed),
     w).
Proof.
  unfold check_connection_limits, get_exchange_connection_count,
    get_ip_connection_count, redis_get.
  rewrite bind_assoc, bind_gets.
  change (bind (ret (default 0 (strings (redis w) !! count_key exchange_id))) ?k w)
    with (k (exchange_count w exchange_id) w).
  cbv beta.
  assert (E : ge_value (exchange_count w exchange_id)
                (own_property
                   (spread DEFAULT_LIMITS [("max_connections_per_exchange", column limit)])
                   "max_connections_per_exchange")
              = (default 0 limit <=? exchange_count w exchange_id)%Z).
  { destruct limit as [l|]; cbn [column default from_option id].
    - change (own_property _ _) with (of_Z l). apply ge_value_of_Z.
    - reflexivity. }
  rewrite E. destruct (default 0 limit <=? exchange_count w exchange_id)%Z;
    [reflexivity|].
  rewrite bind_assoc, bind_gets.
  change (own_property _ "max_connections_per_ip") with (of_Z 10).
  change (bind (ret (default 0 (strings (redis w) !! ip_key ip))) ?k w)
    with (k (ip_count w ip) w).
  cbv beta. rewrite ge_value_of_Z.
  destruct (10 <=? ip_count w ip)%Z; reflexivity.
Qed.



(** The origin check blocks exactly a request that declares a non-empty
    origin missing from a non-empty allow-list; a request without an Origin
    header passes any allow-list. *)
Theorem origin_blocked_iff (cfg : exchange_configurations.row) (origin : option string) :
  origin_blocked cfg origin = true
  <-> exchange_configurations.allowed_origins cfg <> []
      /\ exists o, origin = Some o /\ o <> ""
                   /\ ~ In o (exchange_configurations.allowed_origins cfg).
Proof.
  unfold origin_blocked, origin_truthy.
  rewrite !andb_true_iff, negb_true_iff. split.
  - intros [[Hlen Ho] Hin].
    destruct origin as [o|]; [|discriminate]. split.
    + intros E. rewrite E in Hlen. discriminate.
    + exists o. split; [reflexivity|]. split.
      * intros ->. discriminate.
      * intros HIn. cbn in Hin.
        assert (existsb (String.eqb o) (exchange_configurations.allowed_origins cfg)
                = true) as E; [|congruence].
        apply existsb_exists. exists o. split; [exact HIn|apply String.eqb_refl].
  - intros [Hne (o & -> & Ho & Hin)]. repeat split.
    + destruct (exchange_configurations.allowed_origins cfg); [congruence|].
      cbn [length]. apply Z.ltb_lt. lia.
    + apply negb_true_iff. now apply String.eqb_neq.
    + cbn. destruct (existsb _ _) eqn:E; [|reflexivity].
      apply existsb_exists in E as (x & HIn & Hx). apply String.eqb_eq in Hx.
      subst x. contradiction.
Qed.

(** Projections of an updated world. *)
Lemma pg_set_pg f (w : world) : pg (set_pg f w) = f (pg w).
Proof. reflexivity. Qed.
Lemma redis_set_pg f (w : world) : redis (set_pg f w) = redis w.
Proof. reflexivity. Qed.
Lemma connections_set_pg f (w : world) : connections (set_pg f w) = connections w.
Proof. reflexivity. Qed.
Lemma sockets_set_pg f (w : world) : sockets (set_pg f w) = sockets w.
Proof. reflexivity. Qed.
Lemma sessions_set_pg f (w : world) : sessions (set_pg f w) = sessions w.
Proof. reflexivity. Qed.
Lemma time_set_pg f (w : world) : time (set_pg f w) = time w.
Proof. reflexivity. Qed.
Lemma pg_set_redis f (w : world) : pg (set_redis f w) = pg w.
Proof. reflexivity. Qed.
Lemma redis_set_redis f (w : world) : redis (set_redis f w) = f (redis w).
Proof. reflexivity. Qed.
Lemma connections_set_redis f (w : world) : connections (set_redis f w) = connections w.
Proof. reflexivity. Qed.
Lemma sockets_set_redis f (w : world) : sockets (set_redis f w) = sockets w.
Proof. reflexivity. Qed.
Lemma sessions_set_redis f (w : world) : sessions (set_redis f w) = sessions w.
Proof. reflexivity. Qed.
Lemma time_set_redis f (w : world) : time (set_redis f w) = time w.
Proof. reflexivity. Qed.
Lemma pg_set_connections f (w : world) : pg (set_connections f w) = pg w.
Proof. reflexivity. Qed.
Lemma redis_set_connections f (w : world) : redis (set_connections f w) = redis w.
Proof. reflexivity. Qed.
Lemma connections_set_connections f (w : world) : connections (set_connections f w) = f (connections w).
Proof. reflexivity. Qed.
Lemma sockets_set_connections f (w : world) : sockets (set_connections f w) = sockets w.
Proof. reflexivity. Qed.
Lemma sessions_set_connections f (w : world) : sessions (set_connections f w) = sessions w.
Proof. reflexivity. Qed.
Lemma time_set_connections f (w : world) : time (set_connections f w) = time w.
Proof. reflexivity. Qed.
Lemma pg_set_sockets f (w : world) : pg (set_sockets f w) = pg w.
Proof. reflexivity. Qed.
Lemma redis_set_sockets f (w : world) : redis (set_sockets f w) = redis w.
Proof. reflexivity. Qed.
Lemma connections_set_sockets f (w : world) : connections (set_sockets f w) = connections w.
Proof. reflexivity. Qed.
Lemma sockets_set_sockets f (w : world) : sockets (set_sockets f w) = f (sockets w).
Proof. reflexivity. Qed.
Lemma sessions_set_sockets f (w : world) : sessions (set_sockets f w) = sessions w.
Proof. reflexivity. Qed.
Lemma time_set_sockets f (w : world) : time (set_sockets f w) = time w.
Proof. reflexivity. Qed.
Lemma pg_set_sessions f (w : world) : pg (set_sessions f w) = pg w.
Proof. reflexivity. Qed.
Lemma redis_set_sessions f (w : world) : redis (set_sessions f w) = redis w.
Proof. reflexivity. Qed.
Lemma connections_set_sessions f (w : world) : connections (set_sessions f w) = connections w.
Proof. reflexivity. Qed.
Lemma sockets_set_sessions f (w : world) : sockets (set_sessions f w) = sockets w.
Proof. reflexivity. Qed.
Lemma sessions_set_sessions f (w : world) : sessions (set_sessions f w) = f (sessions w).
Proof. reflexivity. Qed.
Lemma time_set_sessions f (w : world) : time (set_sessions f w) = time w.
Proof. reflexivity. Qed.
Lemma pg_set_time f (w : world) : pg (set_time f w) = pg w.
Proof. reflexivity. Qed.
Lemma redis_set_time f (w : world) : redis (set_time f w) = redis w.
Proof. reflexivity. Qed.
Lemma connections_set_time f (w : world) : connections (set_time f w) = connections w.
Proof. reflexivity. Qed.
Lemma sockets_set_time f (w : world) : sockets (set_time f w) = sockets w.
Proof. reflexivity. Qed.
Lemma sessions_set_time f (w : world) : sessions (set_time f w) = sessions w.
Proof. reflexivity. Qed.
Lemma time_set_time f (w : world) : time (set_time f w) = f (time w).
Proof. reflexivity. Qed.

Create Rewrite HintDb world.
#[global] Hint Rewrite
  pg_set_pg redis_set_pg connections_set_pg sockets_set_pg
  sessions_set_pg time_set_pg pg_set_redis redis_set_redis
  connections_set_redis sockets_set_redis sessions_set_redis time_set_redis
  pg_set_connections redis_set_connections connections_set_connections sockets_set_connections
  sessions_set_connections time_set_connections pg_set_sockets redis_set_sockets
  connections_set_sockets sockets_set_sockets sessions_set_sockets time_set_sockets
  pg_set_sessions redis_set_sessions connections_set_sessions sockets_set_sessions
  sessions_set_sessions time_set_sessions pg_set_time redis_set_time
  connections_set_time sockets_set_time sessions_set_time time_set_time
  : world.


(** What [add_connection] leaves alone. *)
Lemma expire_frame (key : string) (seconds : Z) (w : world) :
  sessions (snd (expire key seconds w)) = sessions w
  /\ sockets (snd (expire key seconds w)) = sockets w
  /\ pg (snd (expire key seconds w)) = pg w
  /\ time (snd (expire key seconds w)) = time w.
Proof.
  unfold expire, modify, set_redis. cbn [snd sessions sockets pg time].
  repeat split.
Qed.

Lemma add_connection_frame (socket_id exchange_id ip : string) (w : world) :
  sessions (snd (add_connection socket_id exchange_id ip w)) = sessions w
  /\ sockets (snd (add_connection socket_id exchange_id ip w)) = sockets w
  /\ pg (snd (add_connection socket_id exchange_id ip w)) = pg w.
Proof.
  unfold add_connection.
  rewrite bind_Date_now, bind_modify, bind_sadd, bind_expire, bind_incr,
    bind_expire, bind_incr.
  repeat split.
Qed.

Lemma alter_stack {A} (f1 f2 f3 f4 : A -> A) (m : gmap string A) (i : string) (x : A) :
  m !! i = Some x ->
  alter f4 i (alter f3 i (alter f2 i (alter f1 i m))) = <[i := f4 (f3 (f2 (f1 x)))]> m.
Proof.
  intros H. apply map_eq. intros j. destruct (decide (i = j)) as [<-|Hne].
  - rewrite !lookup_alter_eq, lookup_insert_eq, H. reflexivity.
  - rewrite !lookup_alter_ne, lookup_insert_ne by assumption. reflexivity.
Qed.

Lemma add_connection_returns (socket_id exchange_id ip : string) (w : world) :
  add_connection socket_id exchange_id ip w
  = (Return tt, snd (add_connection socket_id exchange_id ip w)).
Proof.
  unfold add_connection.
  rewrite bind_Date_now, bind_modify, bind_sadd, bind_expire, bind_incr,
    bind_expire, bind_incr.
  reflexivity.
Qed.

(** [accept_connection] as one step after another. *)
Lemma accept_connection_runs (socket_id id ip : string) (w : world) :
  accept_connection socket_id id ip w
  = (Return tt,
     set_sockets
       (alter (fun s => match readyState s with
                        | OPEN => {| readyState := OPEN;
                                     sent := sent s
                                       ++ [Text (Obj [("type", Str "auth_success");
                                                      ("exchange_id", Str id)])];
                                     close_call := close_call s |}
                        | _ => s
                        end) socket_id)
       (set_sessions (alter (set_heartbeat_interval true) socket_id)
          (snd (add_connection socket_id id ip
                  (set_sessions (alter (set_exchange_id (Some id)) socket_id)
                     (set_sessions (alter (set_is_authenticated true) socket_id)
                        (set_sessions (alter (set_auth_timeout false) socket_id)
                           w))))))).
Proof.
  unfold accept_connection, assign.
  rewrite !bind_modify.
  rewrite (bind_return _ _ _ _ _ (add_connection_returns _ _ _ _)).
  rewrite bind_modify. reflexivity.
Qed.

(** The effect of accepting a connection. *)
Lemma accept_connection_effect (socket_id id ip : string) (w : world) s sock :
  sessions w !! socket_id = Some s ->
  sockets w !! socket_id = Some sock -> readyState sock = OPEN ->
  let w' := snd (accept_connection socket_id id ip w) in
  fst (accept_connection socket_id id ip w) = Return tt
  /\ sessions w'
     = <[socket_id := set_heartbeat_interval true
                        (set_exchange_id (Some id)
                           (set_is_authenticated true (set_auth_timeout false s)))]>
         (sessions w)
  /\ sockets w'
     = <[socket_id := {| readyState := OPEN;
                         sent := sent sock
                           ++ [Text (Obj [("type", Str "auth_success");
                                          ("exchange_id", Str id)])];
                         close_call := close_call sock |}]> (sockets w)
  /\ connections w'
     = <[socket_id := {| conn_exchange_id := id; conn_ip := ip;
                         connected_at := current (time w) |}]> (connections w)
  /\ strings (redis w') = counted_connection id ip (strings (redis w))
  /\ pg w' = pg w.
Proof.
  intros Hs Hsock Hopen. cbv zeta. rewrite accept_connection_runs.
  cbn [fst snd].
  destruct (add_connection_effect socket_id id ip
              (set_sessions (alter (set_exchange_id (Some id)) socket_id)
                 (set_sessions (alter (set_is_authenticated true) socket_id)
                    (set_sessions (alter (set_auth_timeout false) socket_id) w))))
    as (_ & Hc & Hstr).
  destruct (add_connection_frame socket_id id ip
              (set_sessions (alter (set_exchange_id (Some id)) socket_id)
                 (set_sessions (alter (set_is_authenticated true) socket_id)
                    (set_sessions (alter (set_auth_timeout false) socket_id) w))))
    as (Hses & Hsk & Hpg).
  cbv zeta in Hc, Hstr.
  autorewrite with world in *.
  rewrite Hses, Hsk, Hpg, Hc, Hstr.
  autorewrite with world.
  split; [reflexivity|].
  split; [apply (alter_stack _ _ _ _ _ _ _ Hs)|].
  split; [rewrite (alter_present _ _ _ _ Hsock), Hopen; reflexivity|].
  repeat split.
Qed.

Section GatewaySessions.

Variable prepareValue : value -> string.
Variable JSON_value : string -> option value.

(** [handle_auth] on a request that presents the key of an active exchange:
    the origin check, then admission, then acceptance. *)
Lemma handle_auth_admits (socket_id : string) (message key : value) (w : world) cfg s :
  presents_key message key ->
  next_fault (pg w) = None ->
  exchange_with_key (pg w) (sql_text prepareValue key) = Some cfg ->
  exchange_configurations.is_active cfg = true ->
  sessions w !! socket_id = Some s ->
  handle_auth prepareValue socket_id message w
  = (if origin_blocked cfg (origin s)
     then (let* _ := send_error socket_id "origin not allowed" 4008 in
           socket_close socket_id 4008 "Origin not allowed")
     else match admission (exchange_configurations.rate_limit_connections cfg)
                  (exchange_count w (exchange_configurations.exchange_id cfg))
                  (ip_count w (ip s)) with
          | Denied code reason =>
            (let* _ := send_error socket_id reason code in
             socket_close socket_id code reason)
          | Allowed =>
            accept_connection socket_id (exchange_configurations.exchange_id cfg) (ip s)
          end) (after_query w).
Proof.
  intros (Hread & Htype & Hkey & Htruthy) Hq E A Hs.
  assert (Hs' : sessions (after_query w) !! socket_id = Some s) by exact Hs.
  unfold handle_auth.
  erewrite bind_return;
    [|unfold or_; erewrite bind_return;
      [|erewrite bind_return; [|apply get_readable, Hread];
        rewrite Htype; reflexivity];
      cbv beta iota delta [negb]; unfold not_;
      erewrite bind_return; [|apply get_readable, Hread];
      rewrite Hkey, Htruthy; reflexivity].
  change (negb true) with false. cbv beta iota.
  erewrite bind_return; [|apply get_readable, Hread].
  erewrite bind_return; [|apply get_exchange_by_api_key_runs, Hq].
  rewrite Hkey, E, A. change (negb true) with false. cbv beta iota.
  rewrite (bind_return _ _ _ _ _ (var_present _ _ _ _ _ Hs')).
  fold (origin_blocked cfg (origin s)).
  destruct (origin_blocked cfg (origin s)); [reflexivity|].
  rewrite (bind_return _ _ _ _ _ (var_present _ _ _ _ _ Hs')).
  rewrite (bind_return _ _ _ _ _
             (check_connection_limits_runs _ _ _ (after_query w))).
  reflexivity.
Qed.

(** [on_message] on a request that passes every check of [handle_auth]. *)
Lemma on_message_accepted
    (w : world) (socket_id data : string) (message key : value) cfg s :
  sessions w !! socket_id = Some s -> is_authenticated s = false ->
  JSON_parse JSON_value data = Return message ->
  presents_key message key ->
  next_fault (pg w) = None ->
  exchange_with_key (pg w) (sql_text prepareValue key) = Some cfg ->
  exchange_configurations.is_active cfg = true ->
  origin_blocked cfg (origin s) = false ->
  (exchange_count w (exchange_configurations.exchange_id cfg)
   < default 0 (exchange_configurations.rate_limit_connections cfg))%Z ->
  (ip_count w (ip s) < 10)%Z ->
  on_message prepareValue JSON_value socket_id data w
  = (Return tt,
     snd (accept_connection socket_id (exchange_configurations.exchange_id cfg)
            (ip s) (after_query w))).
Proof.
  intros Hs Hauth Hparse Hkey Hq E A Ho Hec Hic.
  rewrite (on_message_parsed prepareValue JSON_value _ _ _ _ _ Hs Hparse), Hauth.
  apply try_catch_return.
  rewrite (handle_auth_admits _ _ _ _ _ _ Hkey Hq E A Hs), Ho.
  unfold admission.
  destruct (Z.leb_spec (default 0 (exchange_configurations.rate_limit_connections cfg))
              (exchange_count w (exchange_configurations.exchange_id cfg))); [lia|].
  destruct (Z.leb_spec 10 (ip_count w (ip s))); [lia|].
  rewrite accept_connection_runs. reflexivity.
Qed.

(** X7. Authentication succeeds. A request with the key of an active
    exchange, from an allowed origin and below both connection limits, makes
    the session authenticated for that exchange with its timer cleared and
    its heartbeat armed, registers the connection, raises both counters, and
    is acknowledged with [auth_success] carrying the exchange id on a socket
    that stays open. *)
Theorem authentication_accepts
    (w : world) (socket_id data : string) (message key : value) cfg s sock :
  sessions w !! socket_id = Some s -> is_authenticated s = false ->
  sockets w !! socket_id = Some sock -> readyState sock = OPEN ->
  JSON_parse JSON_value data = Return message ->
  presents_key message key ->
  next_fault (pg w) = None ->
  exchange_with_key (pg w) (sql_text prepareValue key) = Some cfg ->
  exchange_configurations.is_active cfg = true ->
  origin_blocked cfg (origin s) = false ->
  (exchange_count w (exchange_configurations.exchange_id cfg)
   < default 0 (exchange_configurations.rate_limit_connections cfg))%Z ->
  (ip_count w (ip s) < 10)%Z ->
  let id := exchange_configurations.exchange_id cfg in
  let w' := snd (on_message prepareValue JSON_value socket_id data w) in
  fst (on_message prepareValue JSON_value socket_id data w) = Return tt
  /\ sessions w' !! socket_id = Some (authenticated_as id s)
  /\ sockets w' !! socket_id
     = Some {| readyState := OPEN;
               sent := sent sock
                 ++ [Text (Obj [("type", Str "auth_success"); ("exchange_id", Str id)])];
               close_call := close_call sock |}
  /\ connections w' !! socket_id
     = Some {| conn_exchange_id := id; conn_ip := ip s;
               connected_at := current (time w) |}
  /\ strings (redis w') = counted_connection id (ip s) (strings (redis w))
  /\ (count_key id <> ip_key (ip s) ->
      exchange_count w' id = (exchange_count w id + 1)%Z
      /\ ip_count w' (ip s) = (ip_count w (ip s) + 1)%Z)
  /\ pg w' = pg (after_query w).
Proof.
  intros Hs Hauth Hsock Hopen Hparse Hkey Hq E A Ho Hec Hic id w'. subst id.
  assert (Hs' : sessions (after_query w) !! socket_id = Some s) by exact Hs.
  assert (Hsock' : sockets (after_query w) !! socket_id = Some sock) by exact Hsock.
  destruct (accept_connection_effect socket_id
              (exchange_configurations.exchange_id cfg) (ip s) (after_query w) s sock
              Hs' Hsock' Hopen) as (R & Hses & Hsk & Hc & Hstr & Hpg).
  cbv zeta in Hses, Hsk, Hc, Hstr, Hpg.
  pose proof (on_message_accepted w socket_id data message key cfg s
                Hs Hauth Hparse Hkey Hq E A Ho Hec Hic) as Eo.
  subst w'. rewrite Eo. cbn [fst snd].
  rewrite Hses, Hsk, Hc, Hstr, Hpg.
  split; [reflexivity|].
  split; [apply lookup_insert_eq|].
  split; [apply lookup_insert_eq|].
  split; [apply lookup_insert_eq|].
  split; [reflexivity|].
  split; [|reflexivity].
  intros Hne. unfold exchange_count, ip_count. rewrite Hstr.
  unfold counted_connection.
  change (strings (redis (after_query w))) with (strings (redis w)).
  revert Hne.
  generalize (count_key (exchange_configurations.exchange_id cfg))
    (ip_key (ip s)) (strings (redis w)).
  intros ck ik m Hne.
  rewrite lookup_insert_eq, (lookup_insert_ne _ ck ik) by exact Hne.
  rewrite (lookup_insert_ne _ ik ck) by congruence.
  rewrite lookup_insert_eq. split; reflexivity.
Qed.

(** X8. A declared origin outside the exchange's allow-list is refused with
    the error frame and close code 4008; the session is not authenticated
    and nothing is counted. *)
Theorem authentication_refuses_origin
    (w : world) (socket_id data : string) (message key : value) cfg s sock
    (declared : string) :
  sessions w !! socket_id = Some s -> is_authenticated s = false ->
  sockets w !! socket_id = Some sock -> readyState sock = OPEN ->
  JSON_parse JSON_value data = Return message ->
  presents_key message key ->
  next_fault (pg w) = None ->
  exchange_with_key (pg w) (sql_text prepareValue key) = Some cfg ->
  exchange_configurations.is_active cfg = true ->
  origin s = Some declared -> declared <> "" ->
  exchange_configurations.allowed_origins cfg <> [] ->
  ~ In declared (exchange_configurations.allowed_origins cfg) ->
  on_message prepareValue JSON_value socket_id data w
  = (Return tt,
     set_sockets <[socket_id := {| readyState := CLOSING;
                                   sent := sent sock
                                     ++ [error_frame "origin not allowed" 4008];
                                   close_call := Some (4008, "Origin not allowed") |}]>
       (after_query w)).
Proof.
  intros Hs Hauth Hsock Hopen Hparse Hkey Hq E A Hdecl Hne Hlist Hout.
  assert (Ho : origin_blocked cfg (origin s) = true).
  { apply origin_blocked_iff. split; [exact Hlist|]. exists declared. auto. }
  assert (Hsock' : sockets (after_query w) !! socket_id = Some sock) by exact Hsock.
  rewrite (on_message_parsed prepareValue JSON_value _ _ _ _ _ Hs Hparse), Hauth.
  apply try_catch_return.
  rewrite (handle_auth_admits _ _ _ _ _ _ Hkey Hq E A Hs), Ho.
  apply (refuse_open _ _ _ _ _ _ Hsock' Hopen).
Qed.

(** X9. A connection beyond a limit is refused with the limiter's reason and
    code, 4004 for the exchange's limit before 4005 for the address's; the
    session is not authenticated and nothing is counted. *)
Theorem authentication_refuses_over_limit
    (w : world) (socket_id data : string) (message key : value) cfg s sock
    (code : Z) (reason : string) :
  sessions w !! socket_id = Some s -> is_authenticated s = false ->
  sockets w !! socket_id = Some sock -> readyState sock = OPEN ->
  JSON_parse JSON_value data = Return message ->
  presents_key message key ->
  next_fault (pg w) = None ->
  exchange_with_key (pg w) (sql_text prepareValue key) = Some cfg ->
  exchange_configurations.is_active cfg = true ->
  origin_blocked cfg (origin s) = false ->
  admission (exchange_configurations.rate_limit_connections cfg)
    (exchange_count w (exchange_configurations.exchange_id cfg))
    (ip_count w (ip s)) = Denied code reason ->
  on_message prepareValue JSON_value socket_id data w
  = (Return tt,
     set_sockets <[socket_id := {| readyState := CLOSING;
                                   sent := sent sock ++ [error_frame reason code];
                                   close_call := Some (code, reason) |}]>
       (after_query w))
  /\ (code = 4004 /\ (default 0 (exchange_configurations.rate_limit_connections cfg)
                      <= exchange_count w (exchange_configurations.exchange_id cfg))%Z
      \/ code = 4005 /\ (10 <= ip_count w (ip s))%Z).
Proof.
  intros Hs Hauth Hsock Hopen Hparse Hkey Hq E A Ho Hden.
  assert (Hsock' : sockets (after_query w) !! socket_id = Some sock) by exact Hsock.
  split.
  - rewrite (on_message_parsed prepareValue JSON_value _ _ _ _ _ Hs Hparse), Hauth.
    apply try_catch_return.
    rewrite (handle_auth_admits _ _ _ _ _ _ Hkey Hq E A Hs), Ho, Hden.
    apply (refuse_open _ _ _ _ _ _ Hsock' Hopen).
  - unfold admission in Hden.
    destruct (Z.leb_spec (default 0 (exchange_configurations.rate_limit_connections cfg))
                (exchange_count w (exchange_configurations.exchange_id cfg))).
    + injection Hden as <- _. left. split; [reflexivity|assumption].
    + destruct (Z.leb_spec 10 (ip_count w (ip s))); [|discriminate].
      injection Hden as <- _. right. split; [reflexivity|assumption].
Qed.


(** X14. The callback of the authentication timer closes an unauthenticated
    session with 4001 and does nothing to an authenticated one. *)
Theorem auth_timeout_closes_only_unauthenticated
    (w : world) (socket_id : string) s sock :
  sessions w !! socket_id = Some s ->
  sockets w !! socket_id = Some sock -> readyState sock = OPEN ->
  on_auth_timeout socket_id w
  = if is_authenticated s
    then (Return tt, w)
    else (Return tt,
          set_sockets <[socket_id := {| readyState := CLOSING;
                                        sent := sent sock
                                          ++ [error_frame "authentication timeout" 4001];
                                        close_call := Some (4001, "Auth timeout") |}]> w).
Proof.
  intros Hs Hsock Hopen. unfold on_auth_timeout.
  rewrite (bind_return _ _ _ _ _ (var_present _ _ _ _ _ Hs)).
  destruct (is_authenticated s); [reflexivity|].
  apply (refuse_open _ _ _ _ _ _ Hsock Hopen).
Qed.

(** X15. An authenticated session that sends a message of type ping within
    its budget gets exactly one pong frame, and the message is counted. *)
Theorem ping_is_answered_with_pong
    (w : world) (socket_id data : string) (message : value) s sock :
  sessions w !! socket_id = Some s -> is_authenticated s = true ->
  sockets w !! socket_id = Some sock -> readyState sock = OPEN ->
  JSON_parse JSON_value data = Return message ->
  readable message = true ->
  is_str (property message "type") "ping" = true ->
  (messages_this_minute w socket_id (current (time w)) + 1 <= 60)%Z ->
  on_message prepareValue JSON_value socket_id data w
  = (Return tt,
     set_sockets <[socket_id := {| readyState := OPEN;
                                   sent := sent sock ++ [pong_frame];
                                   close_call := close_call sock |}]>
       (counted socket_id w)).
Proof.
  intros Hs Hauth Hsock Hopen Hparse Hread Htype Hn.
  assert (Hsock' : sockets (counted socket_id w) !! socket_id = Some sock)
    by exact Hsock.
  rewrite (on_message_parsed prepareValue JSON_value _ _ _ _ _ Hs Hparse), Hauth.
  apply try_catch_return.
  rewrite (handle_message_within_budget _ _ _ _ Hs Hread Hn), Htype.
  apply (socket_send_open _ _ _ _ Hsock' Hopen).
Qed.

(** X16. A frame that is no JSON text, in any state of the session, and a
    message without readable properties before authentication, are answered
    with the error frame 4007 on a socket that stays open; nothing is
    looked up and nothing is counted. *)
Theorem malformed_frame_is_answered_not_closed
    (w : world) (socket_id data : string) s sock :
  sessions w !! socket_id = Some s ->
  sockets w !! socket_id = Some sock -> readyState sock = OPEN ->
  (exists e, JSON_parse JSON_value data = Throw e)
  \/ (exists message, JSON_parse JSON_value data = Return message
                      /\ readable message = false /\ is_authenticated s = false) ->
  on_message prepareValue JSON_value socket_id data w
  = (Return tt,
     set_sockets <[socket_id := {| readyState := OPEN;
                                   sent := sent sock
                                     ++ [error_frame "invalid message format" 4007];
                                   close_call := close_call sock |}]> w).
Proof.
  intros Hs Hsock Hopen [[e Hparse]|(message & Hparse & Hread & Hauth)].
  - unfold on_message.
    erewrite try_catch_throw; [apply (send_error_open _ _ _ _ _ Hsock Hopen)|].
    apply bind_throw. rewrite Hparse. reflexivity.
  - rewrite (on_message_parsed prepareValue JSON_value _ _ _ _ _ Hs Hparse), Hauth.
    destruct (get_unreadable message "type" w Hread) as [e He].
    erewrite try_catch_throw; [apply (send_error_open _ _ _ _ _ Hsock Hopen)|].
    unfold handle_auth. apply bind_throw. unfold or_. apply bind_throw.
    apply bind_throw. exact He.
Qed.

End GatewaySessions.

(** X17. The message budget is kept per minute: whether a message is allowed
    depends on the count of the current minute only, which has room for 60,
    and counting it leaves the count of every other minute as it was. *)
Theorem message_budget_is_per_minute
    (w : world) (socket_id : string) (exchange_id : option string) (other : Z) :
  (other / 60000 <> current (time w) / 60000)%Z ->
  let result := check_message_rate socket_id exchange_id None w in
  messages_this_minute (snd result) socket_id other
    = messages_this_minute w socket_id other
  /\ (fst result = Return Allowed
      <-> (messages_this_minute w socket_id (current (time w)) < 60)%Z).
Proof.
  intros Hne result. subst result. rewrite check_message_rate_counts. cbn [fst snd].
  split.
  - unfold messages_this_minute, counted.
    rewrite redis_set_redis. cbn [strings].
    rewrite lookup_insert_ne; [reflexivity|].
    unfold minute_key. intros H.
    do 3 apply String.app_inj in H. apply (inj pretty) in H. congruence.
  - destruct (Z.ltb_spec 60 (messages_this_minute w socket_id (current (time w)) + 1));
      split; intros H'; try reflexivity; try discriminate; lia.
Qed.

(** * More of the trade-token API *)

Section TradeTokenRequests.

Variable prepareValue : value -> string.

(** X2. The controller answers a request that lacks a required field with
    400 and the message of the first missing field, before any query: the
    world is left as it was. A body that is [undefined] or [null] goes to the
    error middleware. *)
Theorem request_without_required_fields (w : world) (req_body : value) :
  let exchange_id := property req_body "exchange_id" in
  let exchange_user_id := property req_body "exchange_user_id" in
  let trade_params := property req_body "trade_params" in
  let answer := generate_trade_token prepareValue req_body w in
  (readable req_body = true -> truthy exchange_id = false ->
   answer = (Return (Responded (error_response "exchange_id is required" 400)), w))
  /\ (readable req_body = true -> truthy exchange_id = true ->
      truthy exchange_user_id = false ->
      answer = (Return (Responded (error_response "exchange_user_id is required" 400)), w))
  /\ (readable req_body = true -> truthy exchange_id = true ->
      truthy exchange_user_id = true ->
      truthy trade_params = false \/ typeof trade_params <> "object" ->
      answer
      = (Return (Responded (error_response "trade_params object is required" 400)), w))
  /\ (readable req_body = false -> exists e, answer = (Return (Next e), w)).
Proof.
  cbv zeta. unfold generate_trade_token.
  repeat split.
  - intros Hr H1. apply try_catch_return.
    rewrite !(bind_return _ _ _ _ _ (get_readable _ _ _ Hr)), H1. reflexivity.
  - intros Hr H1 H2. apply try_catch_return.
    rewrite !(bind_return _ _ _ _ _ (get_readable _ _ _ Hr)), H1, H2. reflexivity.
  - intros Hr H1 H2 H3. apply try_catch_return.
    rewrite !(bind_return _ _ _ _ _ (get_readable _ _ _ Hr)), H1, H2.
    cbn [negb]. destruct H3 as [H3|H3].
    + rewrite H3. reflexivity.
    + destruct (String.eqb_spec (typeof (property req_body "trade_params")) "object");
        [contradiction|].
      rewrite orb_true_r. reflexivity.
  - intros Hr. destruct req_body; try discriminate; eexists; reflexivity.
Qed.

(** X3. A failure of the database during the lookup of the exchange is not
    answered as an invalid exchange: the error goes to the error middleware,
    and nothing is written. *)
Theorem lookup_failure_is_forwarded
    (w : world) (exchange_id exchange_user_id trade_params : value) (e : error) :
  next_fault (pg w) = Some e ->
  has_code e "INVALID_EXCHANGE" = false ->
  has_code e "INVALID_TRADE_PARAMS" = false ->
  truthy exchange_id = true -> truthy exchange_user_id = true ->
  truthy trade_params = true -> typeof trade_params = "object" ->
  generate_trade_token prepareValue
    (Obj [("exchange_id", exchange_id); ("exchange_user_id", exchange_user_id);
          ("trade_params", trade_params)]) w
  = (Return (Next e), after_query w)
  /\ trade_rows (pg (after_query w)) = trade_rows (pg w).
Proof.
  intros F C1 C2 T1 T2 T3 T4. split; [|reflexivity].
  rewrite generate_trade_token_calls_service by assumption.
  assert (Hs : create_signed_token prepareValue exchange_id exchange_user_id
                 trade_params w = (Throw e, after_query w)).
  { unfold create_signed_token. apply bind_throw.
    unfold get_exchange_config.
    erewrite try_catch_throw; [reflexivity|].
    apply pool_query_fails, F. }
  rewrite Hs. unfold generate_trade_token_catch. rewrite C1, C2. reflexivity.
Qed.

(** X4. A token is issued only with its audit row written: the row has the
    status initiated and the identifier the response and the token carry,
    and it is the only row added. With a clock that does not go back the
    token lives at least the 30 seconds the response announces, and at most
    31 when the two readings are less than a second apart. *)
Theorem issued_token_is_audited
    (w : world) cfg (exchange_id exchange_user_id trade_params : value) :
  active_exchange (pg w) (sql_text prepareValue exchange_id) cfg ->
  next_fault (pg w) = None ->
  next_fault (pg (after_query w)) = None ->
  truthy trade_params = true -> typeof trade_params = "object" ->
  trade_params_accepted trade_params = true ->
  exists t w',
    create_signed_token prepareValue exchange_id exchange_user_id trade_params w
      = (Return t, w')
    /\ trade_rows (pg w')
       = (trade_rows (pg w)
          ++ [ {| widget_trades.trade_id := trade_id t;
                  widget_trades.exchange_id := sql_text prepareValue exchange_id;
                  widget_trades.exchange_user_id := sql_text prepareValue exchange_user_id;
                  widget_trades.trade_params := trade_params;
                  widget_trades.status := "initiated" |} ])%list
    /\ jwt.trade_id (jwt.claims (token t)) = trade_id t
    /\ expires_in t = 30
    /\ ((current (time w) <= current (time (tick w)))%Z ->
        (30 <= jwt.exp (jwt.claims (token t)) - jwt.iat (jwt.claims (token t)))%Z)
    /\ ((current (time (tick w)) < current (time w) + 1000)%Z ->
        (jwt.exp (jwt.claims (token t)) - jwt.iat (jwt.claims (token t)) <= 31)%Z).
Proof.
  intros Hcfg Hq Hq2 T O Hacc.
  rewrite (create_signed_token_persists prepareValue w cfg exchange_id
             exchange_user_id trade_params Hcfg Hq T O Hacc), Hq2.
  eexists. eexists. split; [reflexivity|].
  split; [reflexivity|]. split; [reflexivity|]. split; [reflexivity|].
  cbn [token jwt.claims jwt.sign]. unfold token_claims. cbn [jwt.exp jwt.iat].
  split; intros H.
  - pose proof (Z.div_le_mono _ _ 1000 ltac:(lia) H). lia.
  - assert (current (time (tick w)) / 1000 <= (current (time w) + 1 * 1000) / 1000)%Z
      by (apply Z.div_le_mono; lia).
    rewrite Z.div_add in H0 by lia. lia.
Qed.


End TradeTokenRequests.

(** * Broadcast and shutdown *)

Lemma find_none_of {A} (f : A -> bool) (l : list A) :
  (forall x, In x l -> f x = false) -> List.find f l = None.
Proof.
  induction l as [|a l IH]; intros H; [reflexivity|]. cbn.
  rewrite (H a (or_introl eq_refl)). apply IH. intros x Hx. apply H. now right.
Qed.

Lemma alter_selected_lookup (f : socket -> socket) (selected : connection -> bool)
    (entries : list (string * connection)) (m : gmap string socket) (i : string) :
  NoDup (entries.*1) ->
  alter_selected f selected entries m !! i
  = match List.find (fun entry => String.eqb (fst entry) i) entries with
    | Some entry => if selected (snd entry) then f <$> m !! i else m !! i
    | None => m !! i
    end.
Proof.
  revert m. induction entries as [|[j c] entries IH]; intros m Hnd.
  - reflexivity.
  - rewrite fmap_cons in Hnd. apply NoDup_cons in Hnd as [Hj Hnd].
    cbn [alter_selected foldl fst snd List.find] in *.
    fold (alter_selected f selected entries
            (if selected c then alter f j m else m)).
    rewrite (IH _ Hnd).
    destruct (String.eqb_spec j i) as [->|Hne]; cbn [fst snd].
    + assert (List.find (fun entry => String.eqb (fst entry) i) entries = None) as ->.
      { apply find_none_of. intros [k c'] Hin. cbn.
        apply String.eqb_neq. intros ->. apply Hj.
        apply list_elem_of_fmap. exists (i, c'). split; [reflexivity|].
        apply list_elem_of_In, Hin. }
      destruct (selected c); [apply lookup_alter_eq|reflexivity].
    + destruct (selected c); [rewrite lookup_alter_ne by exact Hne|]; reflexivity.
Qed.

Lemma find_map_to_list {A} (m : gmap string A) (i : string) :
  List.find (fun entry => String.eqb (fst entry) i) (map_to_list m)
  = (fun c => (i, c)) <$> m !! i.
Proof.
  pose proof (NoDup_fst_map_to_list m) as Hnd.
  assert (Hin : forall c, (i, c) ∈ map_to_list m <-> m !! i = Some c)
    by (intros c; apply elem_of_map_to_list).
  revert Hnd Hin. generalize (map_to_list m) (m !! i). intros l o.
  induction l as [|[j c] l IH]; intros Hnd Hin.
  - destruct o as [c|]; [|reflexivity].
    exfalso. pose proof (proj2 (Hin c) eq_refl) as H. inversion H.
  - rewrite fmap_cons in Hnd. apply NoDup_cons in Hnd as [Hj Hnd].
    cbn [List.find fst snd] in *.
    destruct (String.eqb_spec j i) as [->|Hne].
    + rewrite (proj1 (Hin c)) by left. reflexivity.
    + apply IH; [exact Hnd|]. intros c'. rewrite <- Hin. split.
      * intros H. now right.
      * intros H. apply elem_of_cons in H as [H|H]; [congruence|exact H].
Qed.

Lemma alter_fixed {A} (f : A -> A) (m : gmap string A) (i : string) :
  (forall x, m !! i = Some x -> f x = x) -> alter f i m = m.
Proof.
  intros H. apply map_eq. intros j. destruct (decide (i = j)) as [<-|Hne].
  - rewrite lookup_alter_eq. destruct (m !! i) as [x|] eqn:E; [|reflexivity].
    cbn. now rewrite (H x).
  - now rewrite lookup_alter_ne.
Qed.

Lemma set_sockets_same (w : world) : set_sockets (fun m => m) w = w.
Proof. destruct w. reflexivity. Qed.

(** One round of a broadcast. *)
Lemma broadcast_step_effect (payload : server_frame) (socket_id : string) (n : Z)
    (w : world) :
  broadcast_step payload socket_id n w
  = (Return (n + (if is_open w socket_id then 1 else 0))%Z,
     set_sockets (alter (with_frame payload) socket_id) w).
Proof.
  unfold broadcast_step, socket_readyState, is_open.
  apply try_catch_return. rewrite bind_gets.
  assert (Hclosed : forall s, sockets w !! socket_id = Some s ->
                              readyState s <> OPEN ->
                              set_sockets (alter (with_frame payload) socket_id) w = w).
  { intros s Hs Hne. rewrite <- (set_sockets_same w) at 2.
    unfold set_sockets. f_equal. apply alter_fixed. intros x Hx.
    rewrite Hs in Hx. injection Hx as <-. unfold with_frame.
    destruct (readyState s); congruence. }
  destruct (sockets w !! socket_id) as [s|] eqn:Hs; cbn [from_option].
  - destruct (readyState s) eqn:R.
    2:{ unfold socket_send. rewrite bind_modify. reflexivity. }
    all: rewrite (Hclosed s eq_refl) by congruence;
      unfold ret; do 2 f_equal; lia.
  - assert (alter (with_frame payload) socket_id (sockets w) = sockets w) as E
      by (apply alter_fixed; intros x Hx; congruence).
    rewrite <- (set_sockets_same w) at 1. unfold set_sockets, ret. rewrite E.
    do 2 f_equal. lia.
Qed.

Lemma is_open_after_frame (payload : server_frame) (i j : string) (w : world) :
  is_open (set_sockets (alter (with_frame payload) i) w) j = is_open w j.
Proof.
  unfold is_open. rewrite sockets_set_sockets.
  destruct (decide (i = j)) as [<-|Hne].
  - rewrite lookup_alter_eq. destruct (sockets w !! i) as [s|]; [|reflexivity].
    cbn. unfold with_frame. destruct (readyState s) eqn:R; cbn; rewrite ?R; reflexivity.
  - now rewrite lookup_alter_ne.
Qed.

(** The loop of a broadcast: the payload goes to the selected entries, and
    the result counts those whose socket is open. *)
Lemma broadcast_loop (selected : connection -> bool) (payload : server_frame)
    (entries : list (string * connection)) (n : Z) (w : world) :
  for_each_connection entries
    (fun socket_id conn sent =>
       if selected conn then broadcast_step payload socket_id sent else ret sent) n w
  = (Return (n + Z.of_nat (length (List.filter
                                     (fun entry => selected (snd entry)
                                                   && is_open w (fst entry))
                                     entries)))%Z,
     set_sockets (alter_selected (with_frame payload) selected entries) w).
Proof.
  revert n w. induction entries as [|[i c] entries IH]; intros n w.
  - cbn. rewrite set_sockets_same. unfold ret. do 2 f_equal. lia.
  - assert (Hcons : forall m,
              alter_selected (with_frame payload) selected ((i, c) :: entries) m
              = alter_selected (with_frame payload) selected entries
                  (if selected c then alter (with_frame payload) i m else m))
      by reflexivity.
    cbn [for_each_connection List.filter fst snd].
    destruct (selected c) eqn:S; cbn [andb].
    + rewrite (bind_return _ _ _ _ _ (broadcast_step_effect _ _ _ _)), IH.
      rewrite (List.filter_ext _ (fun entry => selected (snd entry)
                                            && is_open w (fst entry)))
        by (intros a; now rewrite is_open_after_frame).
      f_equal.
      * f_equal. destruct (is_open w i); cbn [length]; lia.
      * unfold set_sockets. cbn [pg redis connections sockets sessions time].
        f_equal. now rewrite Hcons.
    + change (bind (ret n) ?k w) with (k n w). cbv beta. rewrite IH.
      f_equal. unfold set_sockets. f_equal. now rewrite Hcons.
Qed.

(** Where altering the sockets of the registered connections [selected]
    picks leaves each socket. *)
Lemma alter_selected_connections (f : socket -> socket) (selected : connection -> bool)
    (w : world) (i : string) :
  alter_selected f selected (map_to_list (connections w)) (sockets w) !! i
  = match connections w !! i with
    | Some c => if selected c then f <$> sockets w !! i else sockets w !! i
    | None => sockets w !! i
    end.
Proof.
  rewrite alter_selected_lookup by apply NoDup_fst_map_to_list.
  rewrite find_map_to_list. destruct (connections w !! i); reflexivity.
Qed.

(** X18. [broadcast_to_exchange] puts the message once on every open socket
    registered for the exchange, reports their number, and touches no socket
    of another exchange and nothing but sockets. *)
Theorem broadcast_to_exchange_reaches_its_exchange
    (exchange_id : string) (message : value) (w : world) :
  let selected := fun c => String.eqb (conn_exchange_id c) exchange_id in
  let w' := snd (broadcast_to_exchange exchange_id message w) in
  fst (broadcast_to_exchange exchange_id message w)
    = Return (Z.of_nat (length (recipients selected w)))
  /\ (forall i,
        sockets w' !! i
        = match connections w !! i with
          | Some c => if selected c then with_frame (Text message) <$> sockets w !! i
                      else sockets w !! i
          | None => sockets w !! i
          end)
  /\ redis w' = redis w /\ connections w' = connections w
  /\ sessions w' = sessions w /\ pg w' = pg w.
Proof.
  cbv zeta. unfold broadcast_to_exchange. rewrite bind_gets.
  rewrite (broadcast_loop (fun c => String.eqb (conn_exchange_id c) exchange_id)).
  cbn [fst snd]. split; [reflexivity|].
  split; [|repeat split].
  intros i. rewrite sockets_set_sockets. apply alter_selected_connections.
Qed.

(** X19. [broadcast_to_all] puts the message once on every registered socket
    that is open, reports their number, and leaves a socket that is closing or
    closed, or not registered, as it is. *)
Theorem broadcast_to_all_reaches_open_sockets (message : value) (w : world) :
  let w' := snd (broadcast_to_all message w) in
  fst (broadcast_to_all message w)
    = Return (Z.of_nat (length (recipients (fun _ => true) w)))
  /\ (forall i,
        sockets w' !! i
        = match connections w !! i with
          | Some _ => with_frame (Text message) <$> sockets w !! i
          | None => sockets w !! i
          end)
  /\ redis w' = redis w /\ connections w' = connections w
  /\ sessions w' = sessions w /\ pg w' = pg w.
Proof.
  cbv zeta. unfold broadcast_to_all. rewrite bind_gets.
  pose proof (broadcast_loop (fun _ => true) (Text message)
                (map_to_list (connections w)) 0 w) as Hloop.
  cbv beta iota in Hloop. rewrite Hloop. clear Hloop.
  cbn [fst snd]. split; [reflexivity|].
  split; [|repeat split].
  intros i. rewrite sockets_set_sockets, alter_selected_connections.
  destruct (connections w !! i); reflexivity.
Qed.

Lemma alter_twice {A} (f g : A -> A) (m : gmap string A) (i : string) :
  alter g i (alter f i m) = alter (fun x => g (f x)) i m.
Proof.
  apply map_eq. intros j. destruct (decide (i = j)) as [<-|Hne].
  - rewrite !lookup_alter_eq. destruct (m !! i); reflexivity.
  - rewrite !lookup_alter_ne by assumption. reflexivity.
Qed.

(** One round of the loop of [graceful_shutdown]. *)
Lemma shutdown_step (socket_id : string) (w : world) :
  try_catch
    (let* _ := socket_send socket_id close_message in
     socket_close socket_id 4009 "Server shutdown")
    (fun _ => ret tt) w
  = (Return tt, set_sockets (alter shut_down socket_id) w).
Proof.
  apply try_catch_return. unfold socket_send, socket_close.
  rewrite bind_modify. unfold modify. f_equal.
  unfold set_sockets. cbn [pg redis connections sockets sessions time]. f_equal.
  rewrite alter_twice. apply alter_ext. intros s _. unfold shut_down.
  destruct (readyState s) eqn:R; cbn [readyState sent close_call]; rewrite ?R;
    reflexivity.
Qed.

Lemma shutdown_loop (entries : list (string * connection)) (w : world) :
  foldr (fun entry rest =>
           let* _ := try_catch
                       (let* _ := socket_send (fst entry) close_message in
                        socket_close (fst entry) 4009 "Server shutdown")
                       (fun _ => ret tt) in
           rest) (ret tt) entries w
  = (Return tt, set_sockets (alter_selected shut_down (fun _ => true) entries) w).
Proof.
  revert w. induction entries as [|[i c] entries IH]; intros w.
  - cbn. now rewrite set_sockets_same.
  - cbn [foldr fst]. rewrite (bind_return _ _ _ _ _ (shutdown_step i w)), IH.
    f_equal.
Qed.

(** X20. [graceful_shutdown] tells every registered connection: a socket that is
    open gets the notice and is closed with 4009, a socket that is closing or
    closed, or not registered, is left as it is. The connection map is
    emptied; Redis, the session variables and the database are not touched. *)
Theorem graceful_shutdown_notifies_registered_sockets (w : world) :
  let w' := snd (graceful_shutdown w) in
  fst (graceful_shutdown w) = Return tt
  /\ (forall i,
        sockets w' !! i
        = match connections w !! i with
          | Some _ => shut_down <$> sockets w !! i
          | None => sockets w !! i
          end)
  /\ connections w' = ∅
  /\ redis w' = redis w /\ sessions w' = sessions w /\ pg w' = pg w.
Proof.
  cbv zeta. unfold graceful_shutdown. rewrite bind_gets.
  rewrite (bind_return _ _ _ _ _ (shutdown_loop _ w)).
  unfold modify. cbn [fst snd].
  split; [reflexivity|]. split; [|repeat split].
  intros i. rewrite sockets_set_connections, sockets_set_sockets.
  rewrite alter_selected_connections. destruct (connections w !! i); reflexivity.
Qed.

(** * Properties of the widget's client *)

Lemma retries_from (connections : nat) (code : Z) (s : websocket_service.service) :
  code <> 1000%Z ->
  (websocket_service.reconnect_attempts s <= 5)%nat ->
  websocket_service.retries connections code s
  = List.map (fun k => (1000 * 2 ^ Z.of_nat k)%Z)
      (seq (websocket_service.reconnect_attempts s)
           (Nat.min connections (5 - websocket_service.reconnect_attempts s))).
Proof.
  intros Hcode. revert s.
  induction connections as [|n IH]; intros [sock cfg a p] Ha; [reflexivity|].
  cbn [websocket_service.reconnect_attempts] in *.
  cbn [websocket_service.retries]. unfold websocket_service.onclose.
  unfold websocket_service.stop_ping_interval, websocket_service.schedule_reconnect,
    websocket_service.max_reconnect_attempts, websocket_service.reconnect_delay.
  cbn [websocket_service.reconnect_attempts websocket_service.socket
         websocket_service.config websocket_service.ping_interval].
  destruct (Z.eqb_spec code 1000) as [|_]; [contradiction|]. cbn [negb andb].
  destruct (Nat.ltb_spec a 5) as [Hlt|Hge].
  - rewrite IH.
    + unfold websocket_service.establish_connection.
      cbn [websocket_service.config].
      replace (Nat.min (S n) (5 - a)) with (S (Nat.min n (5 - S a))) by lia.
      replace (S a - 1)%nat with a by lia.
      destruct (negb cfg); reflexivity.
    + unfold websocket_service.establish_connection.
      cbn [websocket_service.config].
      destruct (negb cfg); cbn [websocket_service.reconnect_attempts]; lia.
  - replace (5 - a)%nat with 0%nat by lia.
    rewrite Nat.min_0_r. reflexivity.
Qed.

(** X21. The reconnect delays of the client double from one second: while the
    server cannot be reached, a client that starts with no failed attempt
    waits 1, 2, 4, 8 and 16 seconds and then stops, so it reconnects at most
    five times; a close with the code 1000 is never followed by a
    reconnect. *)
Theorem reconnect_delays_double_and_stop
    (connections : nat) (code : Z) (s : websocket_service.service) :
  websocket_service.reconnect_attempts s = 0%nat ->
  websocket_service.retries connections code s
  = if (code =? 1000)%Z then []
    else firstn connections [1000; 2000; 4000; 8000; 16000]%Z.
Proof.
  intros Ha. destruct (Z.eqb_spec code 1000) as [->|Hcode].
  - destruct connections; reflexivity.
  - rewrite retries_from by (assumption || lia). rewrite Ha.
    do 5 (destruct connections as [|connections]; [reflexivity|]).
    replace (Nat.min _ _) with 5%nat by lia.
    cbn [firstn]. now rewrite firstn_nil.
Qed.

(** * The further properties at sample sessions *)

Lemma authentication_accepts_witness :
  sessions (snd (on_message no_text sample_json "s1" (auth_text "wk_1")
                   (connected_widget (active_acme [] midnight)))) !! "s1"
  = Some (authenticated_as "acme" (fresh_session "10.0.0.1" None)).
Proof.
  refine (proj1 (proj2 (authentication_accepts no_text sample_json
            (connected_widget (active_acme [] midnight)) "s1" (auth_text "wk_1")
            (auth_message "wk_1") (Str "wk_1") (acme true)
            (fresh_session "10.0.0.1" None)
            {| readyState := OPEN; sent := []; close_call := None |}
            _ _ _ _ _ _ _ _ _ _ _ _))); try reflexivity.
  repeat split.
Defined.

Lemma authentication_refuses_origin_witness :
  close_code (snd (on_message no_text sample_json "s1" (auth_text "wk_1")
                     (widget_from (Some "https://evil.example")
                        ["https://acme.example"] (Some 2)))) "s1"
  = Some 4008.
Proof.
  rewrite (authentication_refuses_origin no_text sample_json
             (widget_from (Some "https://evil.example") ["https://acme.example"] (Some 2))
             "s1" (auth_text "wk_1") (auth_message "wk_1") (Str "wk_1")
             (acme_with ["https://acme.example"] (Some 2))
             (fresh_session "10.0.0.1" (Some "https://evil.example"))
             {| readyState := OPEN; sent := []; close_call := None |}
             "https://evil.example");
    try reflexivity; try discriminate.
  - repeat split.
  - intros [H|[]]. discriminate H.
Defined.

Lemma authentication_refuses_over_limit_witness :
  close_code (snd (on_message no_text sample_json "s1" (auth_text "wk_1")
                     (widget_from None [] (Some 0)))) "s1"
  = Some 4004.
Proof.
  rewrite (proj1 (authentication_refuses_over_limit no_text sample_json
             (widget_from None [] (Some 0))
             "s1" (auth_text "wk_1") (auth_message "wk_1") (Str "wk_1")
             (acme_with [] (Some 0))
             (fresh_session "10.0.0.1" None)
             {| readyState := OPEN; sent := []; close_call := None |}
             4004 "exchange connection limit reached"
             eq_refl eq_refl eq_refl eq_refl eq_refl
             (conj eq_refl (conj eq_refl (conj eq_refl eq_refl)))
             eq_refl eq_refl eq_refl eq_refl eq_refl)).
  reflexivity.
Defined.


Lemma on_close_unauthenticated_witness :
  redis (snd (on_close "s1" 1006 (connected_widget (active_acme [] midnight))))
  = redis (connected_widget (active_acme [] midnight)).
Proof.
  exact (proj1 (on_close_unauthenticated "s1" 1006
                  (connected_widget (active_acme [] midnight))
                  (fresh_session "10.0.0.1" None) eq_refl eq_refl)).
Defined.

Lemma auth_timeout_closes_only_unauthenticated_witness :
  close_code (snd (on_auth_timeout "s1" (connected_widget (active_acme [] midnight))))
    "s1"
  = Some 4001.
Proof.
  rewrite (auth_timeout_closes_only_unauthenticated
             (connected_widget (active_acme [] midnight)) "s1"
             (fresh_session "10.0.0.1" None)
             {| readyState := OPEN; sent := []; close_call := None |}
             eq_refl eq_refl eq_refl).
  reflexivity.
Defined.

Lemma ping_is_answered_with_pong_witness :
  wire (snd (on_message no_text sample_json "s1" (typed_text "ping")
               authenticated_widget)) "s1"
  = ([auth_success_frame; pong_frame], None).
Proof.
  rewrite (ping_is_answered_with_pong no_text sample_json authenticated_widget
             "s1" (typed_text "ping") (typed_message "ping")
             (authenticated_as "acme" (fresh_session "10.0.0.1" None))
             {| readyState := OPEN; sent := [auth_success_frame]; close_call := None |});
    try reflexivity.
  vm_compute. discriminate.
Defined.

Lemma malformed_frame_is_answered_not_closed_witness :
  wire (snd (on_message no_text sample_json "s1" "not json"
               (connected_widget (active_acme [] midnight)))) "s1"
  = ([error_frame "invalid message format" 4007], None).
Proof.
  rewrite (malformed_frame_is_answered_not_closed no_text sample_json
             (connected_widget (active_acme [] midnight)) "s1" "not json"
             (fresh_session "10.0.0.1" None)
             {| readyState := OPEN; sent := []; close_call := None |});
    try reflexivity.
  left. eexists. reflexivity.
Defined.

Lemma message_budget_is_per_minute_witness :
  messages_this_minute
    (snd (check_message_rate "s1" (Some "acme") None authenticated_widget)) "s1" 60000
  = messages_this_minute authenticated_widget "s1" 60000.
Proof.
  refine (proj1 (message_budget_is_per_minute authenticated_widget "s1" (Some "acme")
                   60000 _)).
  vm_compute. discriminate.
Defined.

Lemma lookup_failure_is_forwarded_witness :
  generate_trade_token no_text (issuance_request "acme" (of_Z 100))
    (active_acme [Some connection_refused] midnight)
  = (Return (Next connection_refused),
     after_query (active_acme [Some connection_refused] midnight)).
Proof.
  exact (proj1 (lookup_failure_is_forwarded no_text
                  (active_acme [Some connection_refused] midnight)
                  (Str "acme") (Str "u1") (trade_params_of (of_Z 100))
                  connection_refused
                  eq_refl eq_refl eq_refl eq_refl eq_refl eq_refl eq_refl)).
Defined.

Lemma issued_token_is_audited_witness :
  exists t w',
    create_signed_token no_text (Str "acme") (Str "u1") (trade_params_of (of_Z 100))
      (active_acme [] midnight) = (Return t, w')
    /\ List.map widget_trades.status (trade_rows (pg w')) = ["initiated"].
Proof.
  destruct (issued_token_is_audited no_text (active_acme [] midnight) (acme true)
              (Str "acme") (Str "u1") (trade_params_of (of_Z 100))
              eq_refl eq_refl eq_refl eq_refl eq_refl eq_refl)
    as (t & w' & E & R & _).
  exists t, w'. split; [exact E|]. rewrite R. reflexivity.
Defined.

Lemma reconnect_delays_double_and_stop_witness :
  websocket_service.retries 7 1006
    (websocket_service.onopen (websocket_service.connect websocket_service.initial))
  = [1000; 2000; 4000; 8000; 16000].
Proof.
  exact (reconnect_delays_double_and_stop 7 1006
           (websocket_service.onopen
              (websocket_service.connect websocket_service.initial)) eq_refl).
Defined.
